(** * Screen monitor (modernScript.py): a shallow embedding and its properties

    The script polls two screen regions, scores each capture against a
    reference image and plays an audio alert, at most once per cooldown
    period.  Everything the script gets from outside (the file system, the
    image library, the screenshot backends, the clock, the audio mixer, the
    interrupt signal) is gathered in a [World] record of oracles; the
    script's own control flow, exception handling and arithmetic are
    embedded as Rocq functions over it.

    Numbers: Python floats are embedded as exact rationals ([Q]).  Every
    statement below about a score or a time is a statement of exact
    arithmetic; scores are compared with [==] ([Qeq]). *)

From Stdlib Require Import ZArith QArith Qround Qabs List Bool String Ascii.
From Stdlib Require Import Strings.Byte.
From Stdlib Require Import DecimalString Lia Lqa.
From Stdlib Require DecimalPos DecimalZ.
Import ListNotations.

Local Open Scope Q_scope.

(** ** Exceptions and results *)

(** Instances of Python's [Exception] class that the script can meet.
    [KeyboardInterrupt] is not one of them (it derives from
    [BaseException]); it is delivered by the [sigint] oracle below. *)
Inductive exception : Type :=
| FileNotFoundError (msg : string)
| AttributeError (msg : string)
| IndexError (msg : string)
| UnicodeDecodeError
| CalledProcessError (returncode : Z) (stderr : list byte)
| RuntimeError (msg : string)
| NotImplementedError (msg : string)
| cv2_error (msg : string)
| OSError (msg : string)
| OtherException (name : string).

Inductive result (A : Type) : Type :=
| Ok (a : A)
| Raise (e : exception).
Arguments Ok {A} a.
Arguments Raise {A} e.

Definition rbind {A B : Type} (r : result A) (f : A -> result B) : result B :=
  match r with
  | Ok a => f a
  | Raise e => Raise e
  end.

Declare Scope py_scope.
Delimit Scope py_scope with py.
Notation "x <- r ;; k" := (rbind r (fun x => k))
  (at level 61, r at next level, right associativity) : py_scope.

(** ** Images *)

(** A two-dimensional numpy array: its shape and its indexing function.
    Only indices below the shape are ever read. *)
Record Array2 (A : Type) : Type := mkArray2 {
  rows : nat;
  cols : nat;
  at_ : nat -> nat -> A
}.
Arguments mkArray2 {A} rows cols at_.
Arguments rows {A} a.
Arguments cols {A} a.
Arguments at_ {A} a i j.

(** One BGR pixel of an 8-bit image. *)
Definition pixel : Type := (byte * byte * byte)%type.

(** A 3-channel 8-bit image; its numpy shape is [(rows, cols, 3)]. *)
Definition Mat : Type := Array2 pixel.

(** A 4-channel (BGRA) image: the colour planes and the alpha plane. *)
Record Mat4 : Type := mkMat4 {
  bgr : Mat;
  alpha : nat -> nat -> byte
}.

(** What [cv2.imread(path, IMREAD_UNCHANGED)] can decode from an 8-bit
    file: a single-channel image (two-dimensional shape), a BGR image or
    a BGRA image. *)
Inductive decoded : Type :=
| Gray2D (g : Array2 byte)
| Color (m : Mat)
| ColorAlpha (m : Mat4).

Definition shape (m : Mat) : nat * nat * nat := (rows m, cols m, 3%nat).

Definition shape_eqb (a b : Mat) : bool :=
  Nat.eqb (rows a) (rows b) && Nat.eqb (cols a) (cols b).

Definition empty {A : Type} (m : Array2 A) : bool :=
  Nat.eqb (rows m) 0 || Nat.eqb (cols m) 0.

(** ** Configuration (lines 10-19) *)

Record region : Type := mkRegion {
  top : Z;
  left : Z;
  width : Z;
  height : Z
}.

Definition REFERENCE_IMAGE : string := "modern.png".
Definition AUDIO_FILE : string := "audio.mp3".
Definition CHECK_INTERVAL : Q := 2.
Definition COOLDOWN_PERIOD : Q := 20.
Definition SIMILARITY_THRESHOLD : Q := 98 # 100.

Definition REGIONS : list region :=
  [ mkRegion 834 56 35 31 ; mkRegion 835 1830 35 31 ].

(** ** The outside world *)

(** What [subprocess.run] meets: the program could not be started, or it
    ran and exited with a status and two captured streams. *)
Inductive process : Type :=
| SpawnError (msg : string)
| Exited (returncode : Z) (stdout stderr : list byte).

Record CompletedProcess : Type := mkCompleted {
  cp_stdout : list byte;
  cp_stderr : list byte
}.

(** The oracles.  Those that answer differently from call to call take
    the number of the poll cycle that makes the call. *)
Record World : Type := mkWorld {
  platform_system : string;                          (* platform.system() *)
  ref_path_exists : bool;                            (* ref_path.exists() *)
  cv2_imread : option decoded;                       (* None: undecodable *)
  bgr2gray : pixel -> byte;                          (* COLOR_BGR2GRAY, per pixel *)
  interpolate : Mat -> nat -> nat -> nat -> nat -> pixel;
                                                     (* cv2.resize: src, rows, cols of
                                                        the result, then the index *)
  cv2_imdecode : list byte -> option Mat;            (* None: undecodable *)
  subprocess_run : nat -> list string -> process;
  mss_grab : nat -> region -> result Mat4;
  time_time : nat -> Q;
  audio_path_exists : nat -> bool;
  mixer_play : nat -> result unit;                   (* music.load; music.play *)
  sigint : nat -> bool                               (* Ctrl+C during the sleep *)
}.

(** ** Python and library primitives *)

Definition byte_in (lo hi : N) (b : byte) : bool :=
  (N.leb lo (Byte.to_N b) && N.leb (Byte.to_N b) hi)%bool.

Definition continuation (b : byte) : bool := byte_in 128 191 b.

(** Well-formed UTF-8 (the byte ranges of the Unicode standard, which
    exclude overlong forms, surrogates and code points above U+10FFFF). *)
Fixpoint utf8_wellformed (bs : list byte) : bool :=
  match bs with
  | [] => true
  | b0 :: t0 =>
    if byte_in 0 127 b0 then utf8_wellformed t0 else
    match t0 with
    | [] => false
    | b1 :: t1 =>
      if byte_in 194 223 b0 then continuation b1 && utf8_wellformed t1 else
      match t1 with
      | [] => false
      | b2 :: t2 =>
        if byte_in 224 239 b0 then
          (if byte_in 224 224 b0 then byte_in 160 191 b1
           else if byte_in 237 237 b0 then byte_in 128 159 b1
           else continuation b1)
          && continuation b2 && utf8_wellformed t2
        else
        match t2 with
        | [] => false
        | b3 :: t3 =>
          if byte_in 240 244 b0 then
            (if byte_in 240 240 b0 then byte_in 144 191 b1
             else if byte_in 244 244 b0 then byte_in 128 143 b1
             else continuation b1)
            && continuation b2 && continuation b3 && utf8_wellformed t3
          else false
        end
      end
    end
  end.

(** [bytes.decode()]: strict UTF-8.  The text is kept as its encoding. *)
Definition bytes_decode (bs : list byte) : result string :=
  if utf8_wellformed bs then Ok (string_of_list_byte bs)
  else Raise UnicodeDecodeError.

(** [str(n)] for an integer. *)
Definition str_int (n : Z) : string := NilZero.string_of_int (Z.to_int n).

(** [gray.astype(float)] on one element. *)
Definition astype_float (b : byte) : Q := inject_Z (Z.of_N (Byte.to_N b)).

Fixpoint sum_upto (n : nat) (f : nat -> Q) : Q :=
  match n with
  | O => 0
  | S n' => sum_upto n' f + f n'
  end.

(** [np.mean] of a two-dimensional array: the sum of all its elements
    over their number. *)
Definition np_mean (a : Array2 Q) : Q :=
  sum_upto (rows a) (fun i => sum_upto (cols a) (fun j => at_ a i j))
  / inject_Z (Z.of_nat (rows a * cols a)).

(** [int(x)] for a float: truncation toward zero. *)
Definition int_of_float (x : Q) : Z :=
  if Qle_bool 0 x then Qfloor x else Qceiling x.

(** ** Observable behaviour *)

Inductive debug_file : Type :=
| DebugReference                     (* debug_reference.png *)
| DebugRegion (i : nat).             (* debug_region_{i}.png *)

(** What a run does, in order: console lines, files written, calls of the
    capture backend, the audio mixer and [time.sleep]. *)
Inductive event : Type :=
| PrintBanner                                  (* lines 108-112 *)
| PrintRefLoaded (sh : nat * nat * nat)        (* lines 116-117 *)
| ImWrite (f : debug_file)                     (* cv2.imwrite *)
| PrintRefSaved                                (* line 121 *)
| PrintRefError (e : exception)                (* line 123 *)
| CaptureRegion (r : region)                   (* capture_region(region) is called *)
| PrintScore (i : nat) (similarity : Q)        (* line 142 *)
| PrintMatch                                   (* line 146 *)
| PrintRegionError (i : nat) (e : exception)   (* line 148 *)
| PrintNewline                                 (* line 150 *)
| PrintPlaying                                 (* line 155 *)
| PrintAudioWarning                            (* line 98 *)
| MixerPlay                                    (* lines 102-103 went through *)
| PrintAudioError (e : exception)              (* line 105 *)
| PrintCooldown (remaining : Z)                (* line 160 *)
| Sleep                                        (* line 162 *)
| PrintStopped.                                (* line 165 *)

(** A computation that logs events and returns or raises. *)
Definition M (A : Type) : Type := (list event * result A)%type.

Definition ret {A : Type} (a : A) : M A := ([], Ok a).

Definition bind {A B : Type} (m : M A) (f : A -> M B) : M B :=
  match m with
  | (t, Ok a) => let '(t', r) := f a in (t ++ t', r)
  | (t, Raise e) => (t, Raise e)
  end.

Definition emit (e : event) : M unit := ([e], Ok tt).

Definition lift {A : Type} (r : result A) : M A := ([], r).

(** [try: body / except Exception as e: handler e]. *)
Definition try_except {A : Type} (body : M A) (handler : exception -> M A) : M A :=
  match body with
  | (t, Ok a) => (t, Ok a)
  | (t, Raise e) => let '(t', r) := handler e in (t ++ t', r)
  end.

Declare Scope trace_scope.
Delimit Scope trace_scope with trace.
Notation "x <- m ;; k" := (bind m (fun x => k))
  (at level 61, m at next level, right associativity) : trace_scope.
Notation "m ;;; k" := (bind m (fun _ => k))
  (at level 61, right associativity) : trace_scope.

(** The poll loop between two cycles. *)
Record loop_state : Type := mkLoop {
  cycle_no : nat;               (* number of the next cycle, from 1 *)
  last_audio_time : Q
}.

(** How a bounded observation of [main] ends. *)
Inductive status : Type :=
| Returned                           (* line 124: the reference did not load *)
| Interrupted                        (* lines 164-165 *)
| Crashed (e : exception)            (* an exception left [main] *)
| StillRunning (s : loop_state).     (* the observation ended first *)

Section Script.

Variable w : World.

Local Open Scope py_scope.

(** [cv2.cvtColor(img, COLOR_BGRA2BGR)]. *)
Definition cvtColor_BGRA2BGR (m : Mat4) : Mat := bgr m.

(** [cv2.cvtColor(img, COLOR_BGR2GRAY)]; OpenCV asserts a non-empty source. *)
Definition cvtColor_BGR2GRAY (m : Mat) : result (Array2 byte) :=
  if empty m then Raise (cv2_error "!_src.empty()")
  else Ok (mkArray2 (rows m) (cols m) (fun i j => bgr2gray w (at_ m i j))).

(** [cv2.resize(src, (dcols, drows))]; OpenCV asserts a non-empty source
    and a non-empty target size. *)
Definition cv2_resize (src : Mat) (dsize : nat * nat) : result Mat :=
  let '(dcols, drows) := dsize in
  if empty src then Raise (cv2_error "!ssize.empty()")
  else if Nat.eqb drows 0 || Nat.eqb dcols 0 then Raise (cv2_error "!dsize.empty()")
  else Ok (mkArray2 drows dcols (interpolate w src drows dcols)).

(** Lines 79-92.  [img1] may be [None]; [img2] is the loaded reference.
    The two gray arrays have the same shape when they are subtracted,
    since [img2] has been resized to the shape of [img1]. *)
Definition compare_images (img1 : option Mat) (img2 : Mat) : result Q :=
  match img1 with
  | None => Raise (AttributeError "'NoneType' object has no attribute 'shape'")
  | Some img1 =>
    img2 <- (if negb (shape_eqb img1 img2)
             then cv2_resize img2 (cols img1, rows img1)
             else Ok img2) ;;
    gray1 <- cvtColor_BGR2GRAY img1 ;;
    gray2 <- cvtColor_BGR2GRAY img2 ;;
    let mse := np_mean (mkArray2 (rows gray1) (cols gray1)
                 (fun i j => (astype_float (at_ gray1 i j)
                              - astype_float (at_ gray2 i j)) ^ 2)) in
    let max_mse := 255 ^ 2 in
    let similarity := 1 - (mse / max_mse) in
    Ok similarity
  end.

(** Lines 24-35.  The directory of the script is left out of the path. *)
Definition load_reference_image : result Mat :=
  if negb (ref_path_exists w)
  then Raise (FileNotFoundError ("Reference image not found: " ++ REFERENCE_IMAGE))
  else
    match cv2_imread w with
    | None => Raise (AttributeError "'NoneType' object has no attribute 'shape'")
    | Some (Gray2D _) => Raise (IndexError "tuple index out of range")
    | Some (Color img) => Ok img
    | Some (ColorAlpha img) => Ok (cvtColor_BGRA2BGR img)
    end.

(** Lines 37-44.  The result is never [None]. *)
Definition capture_region_windows (k : nat) (r : region) : result (option Mat) :=
  screenshot <- mss_grab w k r ;;
  Ok (Some (cvtColor_BGRA2BGR screenshot)).

(** [subprocess.run(args, capture_output=True, check=True)]. *)
Definition run_checked (k : nat) (args : list string) : result CompletedProcess :=
  match subprocess_run w k args with
  | SpawnError msg => Raise (OSError msg)
  | Exited returncode out err =>
    if Z.eqb returncode 0 then Ok (mkCompleted out err)
    else Raise (CalledProcessError returncode err)
  end.

(** The truth value of a [bytes] object. *)
Definition truthy (bs : list byte) : bool :=
  match bs with [] => false | _ => true end.

(** Lines 46-68. *)
Definition capture_region_linux (k : nat) (r : region) : result (option Mat) :=
  let geometry := (str_int (left r) ++ "," ++ str_int (top r) ++ " "
                   ++ str_int (width r) ++ "x" ++ str_int (height r))%string in
  match (result <- run_checked k ["grim"; "-g"; geometry; "-"]%string ;;
         Ok (cv2_imdecode w (cp_stdout result))) with
  | Raise (CalledProcessError _ e_stderr) =>
    stderr <- (if truthy e_stderr then bytes_decode e_stderr
               else Ok "No error message"%string) ;;
    Raise (RuntimeError ("grim failed: " ++ stderr))
  | outcome => outcome
  end.

(** Lines 70-77. *)
Definition capture_region (k : nat) (r : region) : result (option Mat) :=
  if String.eqb (platform_system w) "Windows" then capture_region_windows k r
  else if String.eqb (platform_system w) "Linux" then capture_region_linux k r
  else Raise (NotImplementedError ("Unsupported OS: " ++ platform_system w)).

(** [cv2.imwrite(path, img)]; OpenCV asserts a non-empty image. *)
Definition cv2_imwrite (f : debug_file) (img : option Mat) : M unit :=
  match img with
  | None => lift (Raise (cv2_error "!_img.empty()"))
  | Some m => if empty m then lift (Raise (cv2_error "!_img.empty()"))
              else emit (ImWrite f)
  end.

Local Open Scope trace_scope.

(** Lines 94-105. *)
Definition play_audio (k : nat) : M unit :=
  if negb (audio_path_exists w k) then emit PrintAudioWarning
  else try_except (lift (mixer_play w k) ;;; emit MixerPlay)
                  (fun e => emit (PrintAudioError e)).

(** Lines 134-146, the body of the per-region [try]; the value is
    [match_found] as the body leaves it. *)
Definition scan_region (k i : nat) (r : region) (reference_img : Mat)
    (match_found : bool) : M bool :=
  emit (CaptureRegion r) ;;;
  screen_img <- lift (capture_region k r) ;;
  cv2_imwrite (DebugRegion i) screen_img ;;;
  similarity <- lift (compare_images screen_img reference_img) ;;
  emit (PrintScore i similarity) ;;;
  if Qle_bool SIMILARITY_THRESHOLD similarity
  then emit PrintMatch ;;; ret true
  else ret match_found.

(** Lines 132-148: [for i, region in enumerate(REGIONS, 1)], from index [i]. *)
Fixpoint for_regions (k i : nat) (rs : list region) (reference_img : Mat)
    (match_found : bool) : M bool :=
  match rs with
  | [] => ret match_found
  | r :: rs' =>
    match_found <- try_except (scan_region k i r reference_img match_found)
                     (fun e => emit (PrintRegionError i e) ;;; ret match_found) ;;
    for_regions k (S i) rs' reference_img match_found
  end.

(** Lines 152-160: the alert step; the value is the new [last_audio_time]. *)
Definition alert_trigger (k : nat) (match_found : bool) (last_audio_time : Q) : M Q :=
  if match_found then
    let current_time := time_time w k in
    if Qle_bool COOLDOWN_PERIOD (current_time - last_audio_time) then
      emit PrintPlaying ;;;
      play_audio k ;;;
      ret current_time
    else
      let remaining :=
        int_of_float (COOLDOWN_PERIOD - (current_time - last_audio_time)) in
      emit (PrintCooldown remaining) ;;;
      ret last_audio_time
  else ret last_audio_time.

(** Lines 130-160: one pass of the [while] body, up to the sleep. *)
Definition poll_cycle (reference_img : Mat) (s : loop_state) : M Q :=
  match_found <- for_regions (cycle_no s) 1 REGIONS reference_img false ;;
  emit PrintNewline ;;;
  alert_trigger (cycle_no s) match_found (last_audio_time s).

(** Lines 129-165, one iteration: the cycle, then the sleep, during which
    Ctrl+C may arrive.  [None] is the end of the loop. *)
Definition step (reference_img : Mat) (s : loop_state)
  : list event * result (option loop_state) :=
  last <- poll_cycle reference_img s ;;
  emit Sleep ;;;
  if sigint w (cycle_no s) then emit PrintStopped ;;; ret None
  else ret (Some (mkLoop (S (cycle_no s)) last)).

(** The loop, observed for at most [fuel] iterations. *)
Fixpoint poll_loop (fuel : nat) (reference_img : Mat) (s : loop_state)
  : list event * status :=
  match fuel with
  | O => ([], StillRunning s)
  | S fuel' =>
    match step reference_img s with
    | (t, Raise e) => (t, Crashed e)
    | (t, Ok None) => (t, Interrupted)
    | (t, Ok (Some s')) =>
      let '(t', st) := poll_loop fuel' reference_img s' in (t ++ t', st)
    end
  end.

Definition initial_state : loop_state := mkLoop 1 0.

(** Lines 107-165. *)
Definition main (fuel : nat) : list event * status :=
  match (emit PrintBanner ;;;
         try_except
           (reference_img <- lift load_reference_image ;;
            emit (PrintRefLoaded (shape reference_img)) ;;;
            cv2_imwrite DebugReference (Some reference_img) ;;;
            emit PrintRefSaved ;;;
            ret (Some reference_img))
           (fun e => emit (PrintRefError e) ;;; ret None)) with
  | (t, Raise e) => (t, Crashed e)
  | (t, Ok None) => (t, Returned)
  | (t, Ok (Some reference_img)) =>
    let '(t', st) := poll_loop fuel reference_img initial_state in (t ++ t', st)
  end.

End Script.

(** ** The Similarity Scorer as the specification words it

    "If their dimensions differ, the reference is resized to the
    candidate's dimensions.  Both grids are converted to grayscale
    intensity.  Score = 1 - mean((gray_candidate - gray_reference)^2) / 65025." *)

Definition nonempty {A : Type} (m : Array2 A) : Prop :=
  (0 < rows m)%nat /\ (0 < cols m)%nat.

Definition spec_reference_as_scored (w : World) (candidate reference : Mat) : Mat :=
  if Nat.eq_dec (rows candidate) (rows reference) then
    if Nat.eq_dec (cols candidate) (cols reference) then reference
    else mkArray2 (rows candidate) (cols candidate)
           (interpolate w reference (rows candidate) (cols candidate))
  else mkArray2 (rows candidate) (cols candidate)
         (interpolate w reference (rows candidate) (cols candidate)).

Definition spec_gray (w : World) (m : Mat) (i j : nat) : Q :=
  astype_float (bgr2gray w (at_ m i j)).

(** The mean of a list of numbers. *)
Definition spec_mean (l : list Q) : Q :=
  fold_right Qplus 0 l / inject_Z (Z.of_nat (List.length l)).

(** All pixel positions of a grid, row by row. *)
Definition positions (m : Mat) : list (nat * nat) :=
  list_prod (seq 0 (rows m)) (seq 0 (cols m)).

Definition spec_score (w : World) (candidate reference : Mat) : Q :=
  1 - spec_mean
        (map (fun '(i, j) =>
                (spec_gray w candidate i j - spec_gray w reference i j) ^ 2)
             (positions candidate))
      / 65025.

(** ** What the properties observe *)

(** The squared gray differences that [compare_images] averages. *)
Definition squared_differences (w : World) (candidate reference : Mat) : Array2 Q :=
  mkArray2 (rows candidate) (cols candidate)
    (fun i j => (spec_gray w candidate i j - spec_gray w reference i j) ^ 2).

(** [enumerate(rs, i)]. *)
Definition enumerate (i : nat) (rs : list region) : list (nat * region) :=
  combine (seq i (List.length rs)) rs.

(** Whether the body of the per-region [try] ran to its end with a match. *)
Definition region_matched (w : World) (k : nat) (reference_img : Mat)
    (i : nat) (r : region) : bool :=
  match snd (scan_region w k i r reference_img false) with
  | Ok b => b
  | Raise _ => false
  end.

(** What one region contributes to the log: the events of the [try] body,
    then the error line when the body raised. *)
Definition region_log (w : World) (k : nat) (reference_img : Mat)
    (i : nat) (r : region) : list event :=
  fst (scan_region w k i r reference_img false)
  ++ match snd (scan_region w k i r reference_img false) with
     | Ok _ => []
     | Raise e => [PrintRegionError i e]
     end.

Definition is_capture (e : event) : bool :=
  match e with CaptureRegion _ => true | _ => false end.

(** Whether some region matches in cycle [k]. *)
Definition any_match (w : World) (reference_img : Mat) (k : nat) : bool :=
  existsb (fun '(j, r) => region_matched w k reference_img j r)
    (enumerate 1 REGIONS).

(** [last_audio_time] after the cycle that starts in state [s]. *)
Definition next_last (w : World) (reference_img : Mat) (s : loop_state) : Q :=
  if any_match w reference_img (cycle_no s)
     && Qle_bool COOLDOWN_PERIOD (time_time w (cycle_no s) - last_audio_time s)
  then time_time w (cycle_no s) else last_audio_time s.

(** The events of the alert step, and the sleep that ends each cycle. *)
Definition is_alert_event (e : event) : bool :=
  match e with
  | PrintPlaying | PrintCooldown _ | Sleep => true
  | _ => false
  end.

Definition alert_events (t : list event) : list event := filter is_alert_event t.

(** For each completed cycle of a log, whether the alert fired in it. *)
Fixpoint fired_by_cycle (t : list event) (fired : bool) : list bool :=
  match t with
  | [] => []
  | Sleep :: t' => fired :: fired_by_cycle t' false
  | PrintPlaying :: t' => fired_by_cycle t' true
  | _ :: t' => fired_by_cycle t' fired
  end.

(** The scores logged, in order. *)
Fixpoint logged_scores (t : list event) : list Q :=
  match t with
  | [] => []
  | PrintScore _ s :: t' => s :: logged_scores t'
  | _ :: t' => logged_scores t'
  end.

Definition score_sequence : list Q :=
  [99 # 100; 1 # 2; 985 # 1000; 99 # 100; 99 # 100].

(** In cycle [k] the capture of region [r] goes through and scores [c]. *)
Definition scores (w : World) (reference_img : Mat) (k : nat) (r : region)
    (c : Q) : Prop :=
  exists screen_img s,
    capture_region w k r = Ok screen_img
    /\ compare_images w screen_img reference_img = Ok s
    /\ s == c.

Definition grim_args (r : region) : list string :=
  ["grim"; "-g";
   str_int (left r) ++ "," ++ str_int (top r) ++ " "
   ++ str_int (width r) ++ "x" ++ str_int (height r); "-"]%string.

(** ** Concrete worlds, for running the model *)

Definition byte_of_N (n : N) : byte :=
  match Byte.of_N n with Some b => b | None => x00 end.

(** OpenCV's fixed-point luma for 8-bit pixels. *)
Definition demo_gray (p : pixel) : byte :=
  let '(b, g, r) := p in
  byte_of_N (N.shiftr (1868 * Byte.to_N b + 9617 * Byte.to_N g
                       + 4899 * Byte.to_N r + 8192) 14).

(** Nearest-neighbour resampling. *)
Definition demo_interpolate (src : Mat) (drows dcols i j : nat) : pixel :=
  at_ src (i * rows src / drows)%nat (j * cols src / dcols)%nat.

(** A gray image given by its intensities, row by row. *)
Definition demo_image (vals : list (list N)) : Mat :=
  mkArray2 (List.length vals) (List.length (hd [] vals))
    (fun i j => let v := byte_of_N (nth j (nth i vals []) 0%N) in (v, v, v)).

(** A toy image format: the number of rows, the number of columns, then
    one intensity per pixel; anything else does not decode. *)
Definition demo_imdecode (bs : list byte) : option Mat :=
  match bs with
  | r :: c :: vals =>
    let nr := N.to_nat (Byte.to_N r) in
    let nc := N.to_nat (Byte.to_N c) in
    if Nat.eqb (List.length vals) (nr * nc) && negb (Nat.eqb (nr * nc) 0)
    then Some (mkArray2 nr nc
                 (fun i j => let v := nth (i * nc + j) vals x00 in (v, v, v)))
    else None
  | _ => None
  end.

Definition demo_encode (nr nc : N) (vals : list N) : list byte :=
  byte_of_N nr :: byte_of_N nc :: map byte_of_N vals.

(** Five 1x8 frames against a black 1x8 reference: their scores are
    0.99, 0.5, 0.985, 0.99 and 0.99. *)
Definition demo_frame (k : nat) : list byte :=
  match k with
  | 2%nat => demo_encode 1 8 [255; 255; 255; 255; 0; 0; 0; 0]%N
  | 3%nat => demo_encode 1 8 [88; 7; 3; 1; 0; 0; 0; 0]%N
  | _ => demo_encode 1 8 [51; 51; 0; 0; 0; 0; 0; 0]%N
  end.

Definition demo_reference : Mat := demo_image [[0; 0; 0; 0; 0; 0; 0; 0]%N].

(** A Linux host where [grim] always succeeds, the clock reads 1000 s at
    the first cycle and advances by the check interval, the audio plays
    and nobody presses Ctrl+C. *)
Definition demo_world : World := {|
  platform_system := "Linux";
  ref_path_exists := true;
  cv2_imread := Some (Color demo_reference);
  bgr2gray := demo_gray;
  interpolate := demo_interpolate;
  cv2_imdecode := demo_imdecode;
  subprocess_run := fun k _ => Exited 0 (demo_frame k) [];
  mss_grab := fun _ _ => Raise (OtherException "ScreenShotError");
  time_time := fun k => 1000 + CHECK_INTERVAL * (inject_Z (Z.of_nat k) - 1);
  audio_path_exists := fun _ => true;
  mixer_play := fun _ => Ok tt;
  sigint := fun _ => false
|}.

Definition demo_small : Mat := demo_image [[10; 200]%N].
Definition demo_large : Mat := demo_image [[10; 20]; [30; 40]; [50; 60]]%N.

(** A world where [grim] fails on the first region only. *)
Definition flaky_world : World := {|
  platform_system := "Linux";
  ref_path_exists := true;
  cv2_imread := Some (Color demo_reference);
  bgr2gray := demo_gray;
  interpolate := demo_interpolate;
  cv2_imdecode := demo_imdecode;
  subprocess_run := fun k args =>
    if String.eqb (nth 2 args ""%string) "56,834 35x31"
    then Exited 1 [] [x6e; x6f; x20; x6f; x75; x74; x70; x75; x74]
    else Exited 0 (demo_frame k) [];
  mss_grab := fun _ _ => Raise (OtherException "ScreenShotError");
  time_time := fun k => 1000 + CHECK_INTERVAL * (inject_Z (Z.of_nat k) - 1);
  audio_path_exists := fun _ => true;
  mixer_play := fun _ => Ok tt;
  sigint := fun _ => false
|}.

Definition no_reference_world : World := {|
  platform_system := platform_system demo_world;
  ref_path_exists := false;
  cv2_imread := None;
  bgr2gray := bgr2gray demo_world;
  interpolate := interpolate demo_world;
  cv2_imdecode := cv2_imdecode demo_world;
  subprocess_run := subprocess_run demo_world;
  mss_grab := mss_grab demo_world;
  time_time := time_time demo_world;
  audio_path_exists := audio_path_exists demo_world;
  mixer_play := mixer_play demo_world;
  sigint := sigint demo_world
|}.

Definition undecodable_reference_world : World := {|
  platform_system := platform_system demo_world;
  ref_path_exists := true;
  cv2_imread := None;
  bgr2gray := bgr2gray demo_world;
  interpolate := interpolate demo_world;
  cv2_imdecode := cv2_imdecode demo_world;
  subprocess_run := subprocess_run demo_world;
  mss_grab := mss_grab demo_world;
  time_time := time_time demo_world;
  audio_path_exists := audio_path_exists demo_world;
  mixer_play := mixer_play demo_world;
  sigint := sigint demo_world
|}.

(** A world where [grim] exits with status 1 and a Latin-1 diagnostic
    ("acc\xe8s refus\xe9"). *)
Definition latin1_world : World := {|
  platform_system := platform_system demo_world;
  ref_path_exists := true;
  cv2_imread := cv2_imread demo_world;
  bgr2gray := bgr2gray demo_world;
  interpolate := interpolate demo_world;
  cv2_imdecode := cv2_imdecode demo_world;
  subprocess_run := fun _ _ =>
    Exited 1 [] [x61; x63; x63; xe8; x73; x20; x72; x65; x66; x75; x73; xe9];
  mss_grab := mss_grab demo_world;
  time_time := time_time demo_world;
  audio_path_exists := audio_path_exists demo_world;
  mixer_play := mixer_play demo_world;
  sigint := sigint demo_world
|}.

(** ** More observations and worlds *)

Definition is_sleep (e : event) : bool :=
  match e with Sleep => true | _ => false end.

Definition is_playing (e : event) : bool :=
  match e with PrintPlaying => true | _ => false end.

(** How many events of a log satisfy [p]. *)
Definition count_events (p : event -> bool) (t : list event) : nat :=
  List.length (filter p t).

(** The log of a region whose capture raised [e]. *)
Definition failed_capture_log (e : exception) (ir : nat * region) : list event :=
  [CaptureRegion (snd ir); PrintRegionError (fst ir) e].

(** The largest mean squared error that still reaches the threshold. *)
Definition MSE_THRESHOLD : Q := 13005 # 10.

(** The concrete world above with some of its oracles replaced. *)
Definition world_with (os : string) (ref_exists : bool) (rd : option decoded)
    (run : nat -> list string -> process) (grab : nat -> region -> result Mat4)
    (aud : nat -> bool) (mix : nat -> result unit) (sig : nat -> bool) : World := {|
  platform_system := os;
  ref_path_exists := ref_exists;
  cv2_imread := rd;
  bgr2gray := demo_gray;
  interpolate := demo_interpolate;
  cv2_imdecode := demo_imdecode;
  subprocess_run := run;
  mss_grab := grab;
  time_time := time_time demo_world;
  audio_path_exists := aud;
  mixer_play := mix;
  sigint := sig
|}.

Definition opaque_alpha : nat -> nat -> byte := fun _ _ => xff.

(** A host that is neither Windows nor Linux. *)
Definition darwin_world : World :=
  world_with "Darwin" true (cv2_imread demo_world) (subprocess_run demo_world)
    (mss_grab demo_world) (fun _ => true) (fun _ => Ok tt) (fun _ => false).

(** A Windows host whose screen shows the first demo frame's picture. *)
Definition windows_world : World :=
  world_with "Windows" true (cv2_imread demo_world) (subprocess_run demo_world)
    (fun _ _ => Ok (mkMat4 (demo_image [[51; 51; 0; 0; 0; 0; 0; 0]%N]) opaque_alpha))
    (fun _ => true) (fun _ => Ok tt) (fun _ => false).

(** The reference file holds a single-channel image. *)
Definition gray_reference_world : World :=
  world_with "Linux" true
    (Some (Gray2D (mkArray2 1 8 (fun _ _ => x00))))
    (subprocess_run demo_world) (mss_grab demo_world)
    (fun _ => true) (fun _ => Ok tt) (fun _ => false).

(** The reference file holds a BGRA image. *)
Definition alpha_reference_world : World :=
  world_with "Linux" true
    (Some (ColorAlpha (mkMat4 demo_reference opaque_alpha)))
    (subprocess_run demo_world) (mss_grab demo_world)
    (fun _ => true) (fun _ => Ok tt) (fun _ => false).

(** The audio file is missing. *)
Definition silent_world : World :=
  world_with "Linux" true (cv2_imread demo_world) (subprocess_run demo_world)
    (mss_grab demo_world) (fun _ => false) (fun _ => Ok tt) (fun _ => false).

(** The mixer refuses the audio file. *)
Definition broken_mixer_world : World :=
  world_with "Linux" true (cv2_imread demo_world) (subprocess_run demo_world)
    (mss_grab demo_world) (fun _ => true)
    (fun _ => Raise (OtherException "pygame.error")) (fun _ => false).


(** [grim] is not installed. *)
Definition no_grim_world : World :=
  world_with "Linux" true (cv2_imread demo_world)
    (fun _ _ => SpawnError "No such file or directory: 'grim'")
    (mss_grab demo_world) (fun _ => true) (fun _ => Ok tt) (fun _ => false).

(** [grim] exits with status 1 and says nothing. *)
Definition mute_grim_world : World :=
  world_with "Linux" true (cv2_imread demo_world)
    (fun _ _ => Exited 1 [] [])
    (mss_grab demo_world) (fun _ => true) (fun _ => Ok tt) (fun _ => false).

(** Ctrl+C arrives during the sleep of the third cycle. *)
Definition interrupted_world : World :=
  world_with "Linux" true (cv2_imread demo_world) (subprocess_run demo_world)
    (mss_grab demo_world) (fun _ => true) (fun _ => Ok tt) (fun k => Nat.eqb k 3).

(** The geometry text that [capture_region_linux] hands to [grim]. *)
Definition geometry (r : region) : string :=
  (str_int (left r) ++ "," ++ str_int (top r) ++ " "
   ++ str_int (width r) ++ "x" ++ str_int (height r))%string.




(** Two pixels of different colours and the same luma. *)
Definition demo_tinted : Mat :=
  mkArray2 1 2 (fun _ j => match j with
                           | O => (x0a, x0a, x0a)
                           | _ => (xcf, xc8, xc7)
                           end).

(** * Properties *)

(** ** Arithmetic of the score *)

Lemma astype_float_range (b : byte) : 0 <= astype_float b <= 255.
Proof.
  unfold astype_float.
  pose proof (Byte.to_N_bounded b) as Hb.
  split.
  - change 0 with (inject_Z 0). rewrite <- Zle_Qle. lia.
  - change 255 with (inject_Z 255). rewrite <- Zle_Qle. lia.
Qed.

Lemma sq_diff_range (a b : Q) :
  0 <= a <= 255 -> 0 <= b <= 255 -> 0 <= (a - b) ^ 2 <= 65025.
Proof.
  intros [Ha0 Ha1] [Hb0 Hb1].
  assert (E : (a - b) ^ 2 == (a - b) * (a - b)) by (simpl; reflexivity).
  rewrite E. set (d := a - b).
  assert (Hd : -(255) <= d <= 255) by (unfold d; split; lra).
  split.
  - destruct (Qlt_le_dec d 0) as [Hneg | Hpos].
    + assert (H : 0 <= (- d) * (- d)) by (apply Qmult_le_0_compat; lra).
      assert (E' : (- d) * (- d) == d * d) by ring.
      rewrite E' in H. exact H.
    + apply Qmult_le_0_compat; assumption.
  - assert (H : 0 <= (255 - d) * (255 + d)) by (apply Qmult_le_0_compat; lra).
    assert (E' : (255 - d) * (255 + d) == 65025 - d * d) by ring.
    rewrite E' in H. lra.
Qed.

Lemma sum_upto_ext (n : nat) (f g : nat -> Q) :
  (forall i, (i < n)%nat -> f i == g i) -> sum_upto n f == sum_upto n g.
Proof.
  induction n as [|n IH]; intros H; simpl.
  - reflexivity.
  - rewrite IH by (intros; apply H; lia). rewrite (H n) by lia. reflexivity.
Qed.

Lemma sum_upto_bounds (n : nat) (f : nat -> Q) (lo hi : Q) :
  (forall i, (i < n)%nat -> lo <= f i <= hi) ->
  inject_Z (Z.of_nat n) * lo <= sum_upto n f <= inject_Z (Z.of_nat n) * hi.
Proof.
  induction n as [|n IH]; intros H.
  - change (inject_Z (Z.of_nat 0)) with 0. simpl sum_upto. split; lra.
  - assert (Hn : lo <= f n <= hi) by (apply H; lia).
    assert (IH' := IH (fun i Hi => H i (Nat.lt_lt_succ_r _ _ Hi))).
    rewrite Nat2Z.inj_succ. unfold Z.succ. rewrite inject_Z_plus. simpl sum_upto.
    change (inject_Z 1) with 1. split; lra.
Qed.

Lemma sum_upto_zero (n : nat) (f : nat -> Q) :
  (forall i, (i < n)%nat -> f i == 0) -> sum_upto n f == 0.
Proof.
  intros H. rewrite (sum_upto_ext n f (fun _ => 0) H).
  clear H. induction n as [|n IH]; simpl; [reflexivity | rewrite IH; lra].
Qed.

Lemma inject_Z_of_nat_pos (n : nat) : (0 < n)%nat -> 0 < inject_Z (Z.of_nat n).
Proof.
  intros H. change 0 with (inject_Z 0). rewrite <- Zlt_Qlt. lia.
Qed.

Lemma np_mean_bounds (a : Array2 Q) (hi : Q) :
  nonempty a ->
  (forall i j, (i < rows a)%nat -> (j < cols a)%nat -> 0 <= at_ a i j <= hi) ->
  0 <= np_mean a <= hi.
Proof.
  intros [Hr Hc] H. unfold np_mean.
  set (R := inject_Z (Z.of_nat (rows a))).
  set (C := inject_Z (Z.of_nat (cols a))).
  assert (HR : 0 < R) by (apply inject_Z_of_nat_pos; exact Hr).
  assert (HC : 0 < C) by (apply inject_Z_of_nat_pos; exact Hc).
  assert (HN : inject_Z (Z.of_nat (rows a * cols a)) == R * C)
    by (rewrite Nat2Z.inj_mul, inject_Z_mult; reflexivity).
  assert (HRC : 0 < R * C) by (apply Qmult_lt_0_compat; assumption).
  assert (Hsum : R * (C * 0)
                 <= sum_upto (rows a) (fun i => sum_upto (cols a) (fun j => at_ a i j))
                 <= R * (C * hi)).
  { apply sum_upto_bounds. intros i Hi.
    apply sum_upto_bounds. intros j Hj. apply H; assumption. }
  rewrite HN. destruct Hsum as [Hlo Hhi]. split.
  - apply Qle_shift_div_l; [exact HRC|]. lra.
  - apply Qle_shift_div_r; [exact HRC|]. lra.
Qed.

Lemma np_mean_zero (a : Array2 Q) :
  (forall i j, (i < rows a)%nat -> (j < cols a)%nat -> at_ a i j == 0) ->
  np_mean a == 0.
Proof.
  intros H. unfold np_mean.
  rewrite sum_upto_zero.
  - unfold Qdiv. ring.
  - intros i Hi. apply sum_upto_zero. intros j Hj. apply H; assumption.
Qed.

Section ScoreFacts.

Variable w : World.

Lemma nonempty_not_empty {A : Type} (m : Array2 A) : nonempty m -> empty m = false.
Proof.
  intros [Hr Hc]. unfold empty.
  destruct (rows m); [lia|]. destruct (cols m); [lia|]. reflexivity.
Qed.

Lemma not_empty_nonempty {A : Type} (m : Array2 A) : empty m = false -> nonempty m.
Proof.
  unfold empty, nonempty. intros H.
  destruct (rows m); [discriminate|]. destruct (cols m); [discriminate|]. lia.
Qed.

Lemma spec_reference_shape (candidate reference : Mat) :
  rows (spec_reference_as_scored w candidate reference) = rows candidate
  /\ cols (spec_reference_as_scored w candidate reference) = cols candidate.
Proof.
  unfold spec_reference_as_scored.
  destruct (Nat.eq_dec (rows candidate) (rows reference)) as [Er|Nr];
    [destruct (Nat.eq_dec (cols candidate) (cols reference)) as [Ec|Nc]|];
    simpl; auto.
Qed.

(** What the code computes on two non-empty grids. *)
Lemma compare_images_value (candidate reference : Mat) :
  nonempty candidate -> nonempty reference ->
  compare_images w (Some candidate) reference
  = Ok (1 - np_mean (squared_differences w candidate
                       (spec_reference_as_scored w candidate reference))
            / 255 ^ 2).
Proof.
  intros Hc Hr.
  pose proof (nonempty_not_empty _ Hc) as Ec.
  pose proof (nonempty_not_empty _ Hr) as Er.
  assert (Ed : (Nat.eqb (rows candidate) 0 || Nat.eqb (cols candidate) 0)%bool = false)
    by exact Ec.
  unfold compare_images, spec_reference_as_scored, shape_eqb.
  destruct (Nat.eq_dec (rows candidate) (rows reference)) as [E1|N1].
  - destruct (Nat.eq_dec (cols candidate) (cols reference)) as [E2|N2].
    + rewrite (proj2 (Nat.eqb_eq _ _) E1), (proj2 (Nat.eqb_eq _ _) E2). simpl.
      unfold cvtColor_BGR2GRAY. rewrite Ec, Er. reflexivity.
    + rewrite (proj2 (Nat.eqb_eq _ _) E1), (proj2 (Nat.eqb_neq _ _) N2). simpl.
      rewrite Er, Ed. simpl. unfold cvtColor_BGR2GRAY, empty. simpl.
      rewrite ?Ed. reflexivity.
  - rewrite (proj2 (Nat.eqb_neq _ _) N1). simpl.
    rewrite Er, Ed. simpl. unfold cvtColor_BGR2GRAY, empty. simpl.
    rewrite ?Ed. reflexivity.
Qed.

Lemma squared_differences_range (candidate reference : Mat) (i j : nat) :
  0 <= at_ (squared_differences w candidate reference) i j <= 65025.
Proof.
  simpl. apply sq_diff_range; apply astype_float_range.
Qed.

(** The score of two non-empty grids exists and lies between 0 and 1. *)
Lemma compare_images_range (candidate reference : Mat) :
  nonempty candidate -> nonempty reference ->
  exists s, compare_images w (Some candidate) reference = Ok s /\ 0 <= s <= 1.
Proof.
  intros Hc Hr. eexists. split; [apply compare_images_value; assumption|].
  set (a := squared_differences w candidate
              (spec_reference_as_scored w candidate reference)).
  assert (Hm : 0 <= np_mean a <= 65025).
  { apply np_mean_bounds; [exact Hc|]. intros. apply squared_differences_range. }
  assert (E : 255 ^ 2 == 65025) by reflexivity.
  rewrite E. destruct Hm as [Hm0 Hm1].
  assert (H0 : 0 <= np_mean a / 65025)
    by (apply Qle_shift_div_l; lra).
  assert (H1 : np_mean a / 65025 <= 1)
    by (apply Qle_shift_div_r; lra).
  split; lra.
Qed.

(** Whenever the code returns a score, both grids were non-empty. *)
Lemma compare_images_Ok_nonempty (img1 : option Mat) (reference : Mat) (s : Q) :
  compare_images w img1 reference = Ok s ->
  exists candidate, img1 = Some candidate /\ nonempty candidate /\ nonempty reference.
Proof.
  destruct img1 as [candidate|]; [|discriminate].
  intros H. exists candidate. split; [reflexivity|].
  unfold compare_images in H.
  destruct (empty candidate) eqn:Ec.
  - exfalso.
    destruct (negb (shape_eqb candidate reference)).
    + destruct (cv2_resize w reference (cols candidate, rows candidate)); simpl in H;
        [unfold cvtColor_BGR2GRAY in H; rewrite Ec in H|]; discriminate.
    + simpl in H. unfold cvtColor_BGR2GRAY in H. rewrite Ec in H. discriminate.
  - split; [apply not_empty_nonempty; exact Ec|].
    apply not_empty_nonempty.
    destruct (empty reference) eqn:Er; [exfalso|reflexivity].
    destruct (negb (shape_eqb candidate reference)).
    + unfold cv2_resize in H. rewrite Er in H. discriminate.
    + simpl in H. unfold cvtColor_BGR2GRAY in H. rewrite Ec, Er in H. discriminate.
Qed.

End ScoreFacts.

(** ** The code's mean against the specification's mean *)

Lemma total_app (l1 l2 : list Q) :
  fold_right Qplus 0 (l1 ++ l2) == fold_right Qplus 0 l1 + fold_right Qplus 0 l2.
Proof.
  induction l1 as [|x l1 IH]; simpl.
  - ring.
  - rewrite IH. ring.
Qed.

Lemma sum_upto_seq (n : nat) (f : nat -> Q) :
  sum_upto n f == fold_right Qplus 0 (map f (seq 0 n)).
Proof.
  induction n as [|n IH].
  - reflexivity.
  - rewrite seq_S, map_app, total_app. simpl. rewrite IH. ring.
Qed.

Lemma total_list_prod (g : nat -> nat -> Q) (l1 l2 : list nat) :
  fold_right Qplus 0 (map (fun '(i, j) => g i j) (list_prod l1 l2))
  == fold_right Qplus 0 (map (fun i => fold_right Qplus 0 (map (g i) l2)) l1).
Proof.
  induction l1 as [|i l1 IH]; simpl.
  - reflexivity.
  - rewrite map_app, total_app, IH, map_map. reflexivity.
Qed.

Lemma total_ext (f g : nat -> Q) (l : list nat) :
  (forall i, f i == g i) ->
  fold_right Qplus 0 (map f l) == fold_right Qplus 0 (map g l).
Proof.
  intros H. induction l as [|x l IH]; simpl; [reflexivity|].
  rewrite IH, (H x). reflexivity.
Qed.

Lemma np_mean_spec_mean (w : World) (candidate reference : Mat) :
  np_mean (squared_differences w candidate reference)
  == spec_mean
       (map (fun '(i, j) =>
               (spec_gray w candidate i j - spec_gray w reference i j) ^ 2)
            (positions candidate)).
Proof.
  unfold np_mean, spec_mean, positions.
  rewrite length_map, length_prod, !length_seq.
  rewrite (total_list_prod
             (fun i j => (spec_gray w candidate i j - spec_gray w reference i j) ^ 2)).
  rewrite sum_upto_seq.
  rewrite (total_ext _ _ _ (fun i => sum_upto_seq (cols candidate) _)).
  reflexivity.
Qed.

Lemma spec_reference_same (w : World) (g : Mat) :
  spec_reference_as_scored w g g = g.
Proof.
  unfold spec_reference_as_scored.
  destruct (Nat.eq_dec (rows g) (rows g)) as [_|N]; [|contradiction].
  destruct (Nat.eq_dec (cols g) (cols g)) as [_|N]; [|contradiction].
  reflexivity.
Qed.

(** ** Similarity Scorer *)

(** C1.  On every pair of non-empty 3-channel 8-bit grids the scorer
    returns [1 - mean((gray_candidate - gray_reference)^2) / 65025], where
    the reference (the second argument, which is what the poll loop passes
    as second argument) is the grid resized to the candidate's dimensions
    when the dimensions differ, and the candidate is used as it is. *)
Theorem compare_images_spec_score (w : World) (candidate reference : Mat) :
  nonempty candidate -> nonempty reference ->
  exists s,
    compare_images w (Some candidate) reference = Ok s
    /\ s == spec_score w candidate (spec_reference_as_scored w candidate reference)
    /\ shape (spec_reference_as_scored w candidate reference) = shape candidate
    /\ forall k i r match_found,
         capture_region w k r = Ok (Some candidate) ->
         In (PrintScore i s) (fst (scan_region w k i r reference match_found)).
Proof.
  intros Hc Hr. eexists. split; [apply compare_images_value; assumption|].
  split; [|split].
  - unfold spec_score. rewrite <- np_mean_spec_mean.
    assert (E : 255 ^ 2 == 65025) by reflexivity.
    rewrite E. reflexivity.
  - unfold shape. destruct (spec_reference_shape w candidate reference) as [-> ->].
    reflexivity.
  - intros k i r mf Hcap. unfold scan_region. rewrite Hcap.
    cbn [lift emit bind cv2_imwrite]. rewrite (nonempty_not_empty _ Hc).
    cbn [lift emit bind].
    rewrite (compare_images_value w candidate reference Hc Hr).
    destruct (Qle_bool SIMILARITY_THRESHOLD _); cbn; auto.
Qed.

Lemma compare_images_spec_score_witness :
  nonempty demo_small /\ nonempty demo_large /\
  exists s,
    compare_images demo_world (Some demo_small) demo_large = Ok s
    /\ s == spec_score demo_world demo_small
              (spec_reference_as_scored demo_world demo_small demo_large)
    /\ shape (spec_reference_as_scored demo_world demo_small demo_large)
       = shape demo_small
    /\ forall k i r match_found,
         capture_region demo_world k r = Ok (Some demo_small) ->
         In (PrintScore i s)
            (fst (scan_region demo_world k i r demo_large match_found)).
Proof.
  assert (Hs : nonempty demo_small) by (unfold nonempty; simpl; lia).
  assert (Hl : nonempty demo_large) by (unfold nonempty; simpl; lia).
  split; [exact Hs|]. split; [exact Hl|].
  apply (compare_images_spec_score demo_world demo_small demo_large Hs Hl).
Defined.

(** C8.  Scoring a non-empty grid against itself returns exactly 1. *)
Theorem compare_images_identical (w : World) (g : Mat) :
  nonempty g ->
  exists s, compare_images w (Some g) g = Ok s /\ s == 1.
Proof.
  intros Hg. eexists. split; [apply compare_images_value; assumption|].
  rewrite spec_reference_same.
  rewrite np_mean_zero.
  - assert (E : 255 ^ 2 == 65025) by reflexivity. rewrite E.
    unfold Qdiv. ring.
  - intros i j _ _. simpl. ring.
Qed.

Lemma compare_images_identical_witness :
  nonempty demo_large /\
  exists s, compare_images demo_world (Some demo_large) demo_large = Ok s /\ s == 1.
Proof.
  assert (Hl : nonempty demo_large) by (unfold nonempty; simpl; lia).
  split; [exact Hl|].
  apply (compare_images_identical demo_world demo_large Hl).
Defined.

(** C4, as the code has it.  The score is not clamped and needs no clamp:
    on every pair of non-empty 8-bit grids the scorer returns a score
    between 0 and 1. *)
Theorem compare_images_unit_interval (w : World) (candidate reference : Mat) :
  nonempty candidate -> nonempty reference ->
  exists s, compare_images w (Some candidate) reference = Ok s /\ 0 <= s <= 1.
Proof.
  intros Hc Hr. apply compare_images_range; assumption.
Qed.

Lemma compare_images_unit_interval_witness :
  nonempty demo_small /\ nonempty demo_large /\
  exists s, compare_images demo_world (Some demo_small) demo_large = Ok s
            /\ 0 <= s <= 1.
Proof.
  assert (Hs : nonempty demo_small) by (unfold nonempty; simpl; lia).
  assert (Hl : nonempty demo_large) by (unfold nonempty; simpl; lia).
  split; [exact Hs|]. split; [exact Hl|].
  apply (compare_images_unit_interval demo_world demo_small demo_large Hs Hl).
Defined.

(** C4, as stated, fails: no world and no pair of 8-bit grids give a
    strictly negative score. *)
Lemma compare_images_never_negative :
  ~ (exists (w : World) (img1 : option Mat) (reference : Mat) (s : Q),
        compare_images w img1 reference = Ok s /\ s < 0).
Proof.
  intros (w & img1 & reference & s & H & Hneg).
  destruct (compare_images_Ok_nonempty w img1 reference s H)
    as (candidate & -> & Hc & Hr).
  destruct (compare_images_range w candidate reference Hc Hr) as (s' & H' & Hs').
  rewrite H in H'. injection H' as <-. lra.
Qed.

(** The lower end is reached: white against black scores 0. *)
Example compare_images_white_black :
  exists s, compare_images demo_world (Some (demo_image [[255; 255]%N]))
              (demo_image [[0; 0]%N]) = Ok s /\ s == 0.
Proof.
  eexists. split; [vm_compute; reflexivity|]. reflexivity.
Qed.

(** ** Alert Trigger *)

Lemma play_audio_returns (w : World) (k : nat) : snd (play_audio w k) = Ok tt.
Proof.
  unfold play_audio.
  destruct (audio_path_exists w k); simpl; [|reflexivity].
  destruct (mixer_play w k) as [[]|e]; reflexivity.
Qed.

Lemma Qle_bool_false (x y : Q) : y < x -> Qle_bool x y = false.
Proof.
  intros H. destruct (Qle_bool x y) eqn:E; [|reflexivity].
  apply Qle_bool_iff in E. exfalso. apply (Qlt_not_le _ _ H E).
Qed.

Lemma Qle_bool_true (x y : Q) : x <= y -> Qle_bool x y = true.
Proof. apply Qle_bool_iff. Qed.

Lemma alert_trigger_fires (w : World) (k : nat) (last : Q) :
  COOLDOWN_PERIOD <= time_time w k - last ->
  alert_trigger w k true last
  = (PrintPlaying :: fst (play_audio w k), Ok (time_time w k)).
Proof.
  intros H. unfold alert_trigger. rewrite (Qle_bool_true _ _ H).
  pose proof (play_audio_returns w k) as Hp.
  destruct (play_audio w k) as [t r]. simpl in Hp. subst r.
  cbn. rewrite app_nil_r. reflexivity.
Qed.

Lemma alert_trigger_suppressed (w : World) (k : nat) (last : Q) :
  time_time w k - last < COOLDOWN_PERIOD ->
  alert_trigger w k true last
  = ([PrintCooldown (int_of_float (COOLDOWN_PERIOD - (time_time w k - last)))],
     Ok last).
Proof.
  intros H. unfold alert_trigger. rewrite (Qle_bool_false _ _ H). reflexivity.
Qed.

Lemma int_of_float_positive (x : Q) :
  0 <= x -> inject_Z (int_of_float x) <= x < inject_Z (int_of_float x) + 1.
Proof.
  intros H. unfold int_of_float. rewrite (Qle_bool_true _ _ H). split.
  - apply Qfloor_le.
  - pose proof (Qlt_floor x) as Hf. rewrite inject_Z_plus in Hf. exact Hf.
Qed.

(** ** One pass over the regions *)

Section Regions.

Variable w : World.
Variable k : nat.
Variable reference_img : Mat.

(** The flag that enters the body only shows in the value it returns. *)
Lemma scan_region_flag (i : nat) (r : region) (match_found : bool) :
  scan_region w k i r reference_img match_found
  = (fst (scan_region w k i r reference_img false),
     match snd (scan_region w k i r reference_img false) with
     | Ok b => Ok (b || match_found)%bool
     | Raise e => Raise e
     end).
Proof.
  unfold scan_region.
  destruct (capture_region w k r) as [screen_img|e]; [|reflexivity].
  cbn [lift emit bind].
  destruct (cv2_imwrite (DebugRegion i) screen_img) as [t [[]|e]]; [|reflexivity].
  cbn [lift emit bind].
  destruct (compare_images w screen_img reference_img) as [s|e]; [|reflexivity].
  cbn [lift emit bind].
  destruct (Qle_bool SIMILARITY_THRESHOLD s); reflexivity.
Qed.

Lemma try_scan_region (i : nat) (r : region) (match_found : bool) :
  try_except (scan_region w k i r reference_img match_found)
    (fun e => bind (emit (PrintRegionError i e)) (fun _ => ret match_found))
  = (region_log w k reference_img i r, Ok (match_found || region_matched w k reference_img i r)%bool).
Proof.
  rewrite scan_region_flag. unfold region_log, region_matched, try_except.
  destruct (snd (scan_region w k i r reference_img false)) as [b|e]; cbn.
  - rewrite app_nil_r, orb_comm. reflexivity.
  - rewrite orb_false_r. reflexivity.
Qed.

Lemma for_regions_unfold (i : nat) (rs : list region) (match_found : bool) :
  for_regions w k i rs reference_img match_found
  = (flat_map (fun '(j, r) => region_log w k reference_img j r) (enumerate i rs),
     Ok (match_found
         || existsb (fun '(j, r) => region_matched w k reference_img j r) (enumerate i rs))%bool).
Proof.
  revert i match_found. induction rs as [|r rs IH]; intros i match_found.
  - cbn. rewrite orb_false_r. reflexivity.
  - cbn [for_regions]. rewrite try_scan_region. cbn [bind].
    rewrite IH. unfold enumerate. cbn. rewrite orb_assoc. reflexivity.
Qed.

Lemma region_log_captures (i : nat) (r : region) :
  filter is_capture (region_log w k reference_img i r) = [CaptureRegion r].
Proof.
  unfold region_log, scan_region.
  destruct (capture_region w k r) as [screen_img|e]; [|reflexivity].
  cbn [lift emit bind].
  assert (Hw : cv2_imwrite (DebugRegion i) screen_img = ([ImWrite (DebugRegion i)], Ok tt)
               \/ exists e, cv2_imwrite (DebugRegion i) screen_img = ([], Raise e)).
  { unfold cv2_imwrite, lift, emit.
    destruct screen_img as [m|]; [destruct (empty m)|]; eauto. }
  destruct Hw as [-> | [e ->]]; [|reflexivity].
  cbn [lift emit bind].
  destruct (compare_images w screen_img reference_img) as [s|e]; [|reflexivity].
  cbn [lift emit bind].
  destruct (Qle_bool SIMILARITY_THRESHOLD s); reflexivity.
Qed.

Lemma enumerate_nth (i : nat) (rs : list region) (j : nat) (r : region) :
  nth_error rs j = Some r -> In ((i + j)%nat, r) (enumerate i rs).
Proof.
  revert i j. induction rs as [|r0 rs IH]; intros i j H.
  - destruct j; discriminate.
  - destruct j as [|j]; cbn in *.
    + injection H as ->. left. f_equal. lia.
    + right. replace (i + S j)%nat with (S i + j)%nat by lia.
      apply (IH (S i) j H).
Qed.

Lemma filter_flat_map_captures (l : list (nat * region)) :
  filter is_capture (flat_map (fun '(j, r) => region_log w k reference_img j r) l) = map (fun p => CaptureRegion (snd p)) l.
Proof.
  induction l as [|[j r] l IH]; cbn [flat_map map]; [reflexivity|].
  rewrite filter_app, region_log_captures, IH. reflexivity.
Qed.

Lemma enumerate_snd (i : nat) (rs : list region) : map snd (enumerate i rs) = rs.
Proof.
  revert i. induction rs as [|r rs IH]; intros i; cbn; [reflexivity|].
  f_equal. apply IH.
Qed.

(** A region whose capture and scoring go through has its score logged. *)
Lemma region_log_score (i : nat) (r : region) (screen_img : option Mat) (s : Q) :
  capture_region w k r = Ok screen_img ->
  compare_images w screen_img reference_img = Ok s ->
  In (PrintScore i s) (region_log w k reference_img i r)
  /\ region_matched w k reference_img i r = Qle_bool SIMILARITY_THRESHOLD s.
Proof.
  intros Hcap Hs.
  destruct (compare_images_Ok_nonempty w _ _ _ Hs) as (m & -> & Hm & _).
  unfold region_log, region_matched, scan_region. rewrite Hcap.
  cbn [lift emit bind cv2_imwrite]. rewrite (nonempty_not_empty _ Hm).
  cbn [lift emit bind]. rewrite Hs. cbn [lift emit bind].
  destruct (Qle_bool SIMILARITY_THRESHOLD s); cbn; auto.
Qed.

End Regions.

(** C5.  In one cycle, whatever the regions before it did: the pass never
    raises (the cycle is not aborted) and [match_found] is the disjunction
    over the regions whose body ran to a match, so a region that failed
    counts as no match; the capture backend is called once for every
    region, in order; every failure is logged for its region; and every
    region whose capture and scoring go through has its score logged and
    compared with the threshold. *)
Theorem for_regions_isolates_failures
    (w : World) (k i : nat) (rs : list region) (reference_img : Mat)
    (match_found : bool) :
  let log := fst (for_regions w k i rs reference_img match_found) in
  snd (for_regions w k i rs reference_img match_found)
  = Ok (match_found
        || existsb (fun '(j, r) => region_matched w k reference_img j r)
             (enumerate i rs))%bool
  /\ filter is_capture log = map CaptureRegion rs
  /\ (forall j r e,
        nth_error rs j = Some r ->
        snd (scan_region w k (i + j) r reference_img false) = Raise e ->
        In (PrintRegionError (i + j) e) log
        /\ region_matched w k reference_img (i + j) r = false)
  /\ (forall j r screen_img s,
        nth_error rs j = Some r ->
        capture_region w k r = Ok screen_img ->
        compare_images w screen_img reference_img = Ok s ->
        In (PrintScore (i + j) s) log
        /\ region_matched w k reference_img (i + j) r
           = Qle_bool SIMILARITY_THRESHOLD s).
Proof.
  intros log. subst log. rewrite for_regions_unfold. cbn [fst snd].
  split; [reflexivity|]. split; [|split].
  - rewrite filter_flat_map_captures.
    rewrite <- (enumerate_snd i rs) at 2. rewrite map_map. reflexivity.
  - intros j r e Hnth He. split.
    + apply in_flat_map. exists ((i + j)%nat, r).
      split; [apply enumerate_nth; exact Hnth|].
      unfold region_log. rewrite He. apply in_or_app. right. left. reflexivity.
    + unfold region_matched. rewrite He. reflexivity.
  - intros j r screen_img s Hnth Hcap Hs.
    destruct (region_log_score w k reference_img (i + j) r screen_img s Hcap Hs)
      as [Hin Hm].
    split; [|exact Hm].
    apply in_flat_map. exists ((i + j)%nat, r).
    split; [apply enumerate_nth; exact Hnth|exact Hin].
Qed.

Lemma for_regions_isolates_failures_witness :
  let log := fst (for_regions flaky_world 1 1 REGIONS demo_reference false) in
  (In (PrintRegionError 1 (RuntimeError "grim failed: no output")) log
   /\ region_matched flaky_world 1 demo_reference 1 (mkRegion 834 56 35 31) = false)
  /\ (exists s,
        In (PrintScore 2 s) log
        /\ region_matched flaky_world 1 demo_reference 2 (mkRegion 835 1830 35 31)
           = Qle_bool SIMILARITY_THRESHOLD s)
  /\ filter is_capture log = map CaptureRegion REGIONS.
Proof.
  pose proof (for_regions_isolates_failures flaky_world 1 1 REGIONS
                demo_reference false) as (Hflag & Hcap & Hfail & Hscore).
  split; [|split].
  - apply (Hfail 0%nat (mkRegion 834 56 35 31)); reflexivity.
  - eexists.
    apply (Hscore 1%nat (mkRegion 835 1830 35 31)
             (cv2_imdecode flaky_world (demo_frame 1))); vm_compute; reflexivity.
  - exact Hcap.
Defined.

(** ** The poll loop *)

Section Loop.

Variable w : World.
Variable reference_img : Mat.

(** What the alert step can do to [last_audio_time]. *)
Lemma alert_trigger_cases (k : nat) (match_found : bool) (last : Q) :
  alert_trigger w k match_found last
  = (if match_found
     then if Qle_bool COOLDOWN_PERIOD (time_time w k - last)
          then PrintPlaying :: fst (play_audio w k)
          else [PrintCooldown
                  (int_of_float (COOLDOWN_PERIOD - (time_time w k - last)))]
     else [],
     Ok (if match_found && Qle_bool COOLDOWN_PERIOD (time_time w k - last)
         then time_time w k else last)).
Proof.
  destruct match_found; [|reflexivity].
  destruct (Qle_bool COOLDOWN_PERIOD (time_time w k - last)) eqn:E.
  - apply Qle_bool_iff in E. rewrite (alert_trigger_fires w k last E). reflexivity.
  - unfold alert_trigger. rewrite E. reflexivity.
Qed.

Lemma poll_cycle_unfold (s : loop_state) :
  poll_cycle w reference_img s
  = (fst (for_regions w (cycle_no s) 1 REGIONS reference_img false)
     ++ PrintNewline
     :: fst (alert_trigger w (cycle_no s) (any_match w reference_img (cycle_no s)) (last_audio_time s)),
     Ok (next_last w reference_img s)).
Proof.
  unfold poll_cycle. rewrite for_regions_unfold. cbn [bind emit fst snd orb].
  fold (any_match w reference_img (cycle_no s)).
  rewrite alert_trigger_cases. cbn [fst app]. reflexivity.
Qed.

Lemma step_unfold (s : loop_state) :
  step w reference_img s
  = (fst (poll_cycle w reference_img s)
     ++ Sleep :: (if sigint w (cycle_no s) then [PrintStopped] else []),
     Ok (if sigint w (cycle_no s) then None
         else Some (mkLoop (S (cycle_no s)) (next_last w reference_img s)))).
Proof.
  unfold step. rewrite poll_cycle_unfold. cbn [bind emit fst snd].
  destruct (sigint w (cycle_no s)); cbn; rewrite ?app_nil_r; reflexivity.
Qed.

(** One cycle leaves [last_audio_time] alone or, with the alert line in
    its log, moves it to a clock reading at least one cooldown later. *)
Lemma next_last_cases (s : loop_state) :
  next_last w reference_img s = last_audio_time s
  \/ (next_last w reference_img s = time_time w (cycle_no s)
      /\ last_audio_time s + COOLDOWN_PERIOD <= next_last w reference_img s
      /\ In PrintPlaying (fst (poll_cycle w reference_img s))).
Proof.
  unfold next_last.
  destruct (any_match w reference_img (cycle_no s)) eqn:Em; [|left; reflexivity].
  destruct (Qle_bool COOLDOWN_PERIOD (time_time w (cycle_no s) - last_audio_time s))
    eqn:Ec; [|left; reflexivity].
  right. cbn. split; [reflexivity|]. split.
  - apply Qle_bool_iff in Ec. lra.
  - rewrite poll_cycle_unfold. cbn [fst]. apply in_or_app. right. right.
    rewrite alert_trigger_cases, Em, Ec. left. reflexivity.
Qed.

Lemma next_last_le (s : loop_state) : last_audio_time s <= next_last w reference_img s.
Proof.
  destruct (next_last_cases s) as [-> | (_ & H & _)].
  - apply Qle_refl.
  - unfold COOLDOWN_PERIOD in H. lra.
Qed.

Lemma poll_loop_monotone (fuel : nat) (s : loop_state) (t : list event)
    (s' : loop_state) :
  poll_loop w fuel reference_img s = (t, StillRunning s') ->
  last_audio_time s <= last_audio_time s'.
Proof.
  revert s t. induction fuel as [|fuel IH]; intros s t H.
  - cbn in H. injection H as _ <-. apply Qle_refl.
  - cbn [poll_loop] in H. rewrite step_unfold in H.
    destruct (sigint w (cycle_no s)); [discriminate|].
    destruct (poll_loop w fuel reference_img (mkLoop (S (cycle_no s)) (next_last w reference_img s)))
      as [t' st] eqn:E.
    injection H as _ ->.
    apply IH in E. cbn in E.
    apply (Qle_trans _ _ _ (next_last_le s) E).
Qed.

End Loop.

(** C2.  A cycle in which some region matched ends with the alert step
    run on [match_found = True], and in that step: when
    [now - last_audio_time >= COOLDOWN_PERIOD] the audio playback is
    invoked and [last_audio_time] becomes [now]; otherwise the whole
    seconds that remain are reported, nothing is played and
    [last_audio_time] stays.  From the initial value 0 a match fires as
    soon as the clock reads at least the cooldown period (it reads seconds
    since 1970), and a match exactly one cooldown period after the last
    alert fires. *)
Theorem alert_trigger_cooldown (w : World) (k : nat) (last : Q) :
  (forall reference_img,
     any_match w reference_img k = true ->
     poll_cycle w reference_img (mkLoop k last)
     = (fst (for_regions w k 1 REGIONS reference_img false)
        ++ PrintNewline :: fst (alert_trigger w k true last),
        snd (alert_trigger w k true last)))
  /\ (COOLDOWN_PERIOD <= time_time w k - last ->
     alert_trigger w k true last
     = (PrintPlaying :: fst (play_audio w k), Ok (time_time w k)))
  /\ (time_time w k - last < COOLDOWN_PERIOD ->
     exists remaining,
       alert_trigger w k true last = ([PrintCooldown remaining], Ok last)
       /\ inject_Z remaining <= COOLDOWN_PERIOD - (time_time w k - last)
          < inject_Z remaining + 1)
  /\ (COOLDOWN_PERIOD <= time_time w k ->
     alert_trigger w k true (last_audio_time initial_state)
     = (PrintPlaying :: fst (play_audio w k), Ok (time_time w k)))
  /\ (time_time w k - last == COOLDOWN_PERIOD ->
     alert_trigger w k true last
     = (PrintPlaying :: fst (play_audio w k), Ok (time_time w k))).
Proof.
  split; [|repeat split].
  - intros reference_img Hm. rewrite poll_cycle_unfold. cbn [cycle_no last_audio_time].
    rewrite Hm, alert_trigger_cases. unfold next_last. cbn [cycle_no last_audio_time].
    rewrite Hm. reflexivity.
  - apply alert_trigger_fires.
  - intros H. eexists. split; [apply alert_trigger_suppressed; exact H|].
    apply int_of_float_positive. lra.
  - intros H. apply alert_trigger_fires. simpl. lra.
  - intros H. apply alert_trigger_fires. rewrite H. lra.
Qed.

Lemma alert_trigger_cooldown_witness :
  alert_trigger demo_world 1 true 0
  = ([PrintPlaying; MixerPlay], Ok (time_time demo_world 1))
  /\ (exists remaining,
        alert_trigger demo_world 3 true 1000 = ([PrintCooldown remaining], Ok 1000)
        /\ inject_Z remaining <= COOLDOWN_PERIOD - (time_time demo_world 3 - 1000)
           < inject_Z remaining + 1)
  /\ alert_trigger demo_world 11 true 1000
     = ([PrintPlaying; MixerPlay], Ok (time_time demo_world 11)).
Proof.
  split; [|split].
  - apply (proj1 (proj2 (proj2 (proj2 (alert_trigger_cooldown demo_world 1 0))))).
    vm_compute. discriminate.
  - apply (proj1 (proj2 (proj2 (alert_trigger_cooldown demo_world 3 1000)))).
    vm_compute. reflexivity.
  - apply (proj2 (proj2 (proj2 (proj2 (alert_trigger_cooldown demo_world 11 1000))))).
    vm_compute. reflexivity.
Defined.

(** C7.  [last_audio_time] starts at 0; one iteration of the loop either
    leaves it as it is or, when the alert fired in that iteration,
    replaces it with a strictly larger value (the clock reading, at least
    one cooldown period later); hence between any two points of a run it
    never decreases. *)
Theorem last_audio_time_monotone (w : World) (reference_img : Mat) :
  last_audio_time initial_state = 0
  /\ (forall s t s',
        step w reference_img s = (t, Ok (Some s')) ->
        last_audio_time s' = last_audio_time s
        \/ (In PrintPlaying t
            /\ last_audio_time s' = time_time w (cycle_no s)
            /\ last_audio_time s < last_audio_time s'))
  /\ (forall fuel s t s',
        poll_loop w fuel reference_img s = (t, StillRunning s') ->
        last_audio_time s <= last_audio_time s').
Proof.
  split; [reflexivity|]. split.
  - intros s t s' H. rewrite step_unfold in H.
    destruct (sigint w (cycle_no s)); [discriminate|].
    injection H as <- <-. cbn [last_audio_time].
    destruct (next_last_cases w reference_img s) as [E | (E & Hle & Hin)].
    + left. exact E.
    + right. split; [apply in_or_app; left; exact Hin|].
      split; [exact E|]. unfold COOLDOWN_PERIOD in Hle. lra.
  - intros fuel s t s'. apply poll_loop_monotone.
Qed.

Lemma last_audio_time_monotone_witness :
  (last_audio_time (mkLoop 2 (time_time demo_world 1)) = last_audio_time initial_state
   \/ (In PrintPlaying (fst (step demo_world demo_reference initial_state))
       /\ last_audio_time (mkLoop 2 (time_time demo_world 1)) = time_time demo_world 1
       /\ last_audio_time initial_state
          < last_audio_time (mkLoop 2 (time_time demo_world 1))))
  /\ last_audio_time initial_state
     <= last_audio_time (mkLoop 6 (time_time demo_world 1)).
Proof.
  pose proof (last_audio_time_monotone demo_world demo_reference)
    as (_ & Hstep & Hrun).
  split.
  - apply (Hstep initial_state (fst (step demo_world demo_reference initial_state))).
    vm_compute. reflexivity.
  - apply (Hrun 5%nat initial_state
             (fst (poll_loop demo_world 5 demo_reference initial_state))).
    vm_compute. reflexivity.
Defined.

(** C6.  When the reference file is absent, [main] prints the banner and
    the error and returns: no capture, no score, no cycle. *)
Theorem main_missing_reference (w : World) (fuel : nat) :
  ref_path_exists w = false ->
  main w fuel
  = ([PrintBanner;
      PrintRefError
        (FileNotFoundError ("Reference image not found: " ++ REFERENCE_IMAGE))],
     Returned).
Proof.
  intros H. unfold main, load_reference_image. rewrite H. reflexivity.
Qed.

Lemma main_missing_reference_witness :
  ref_path_exists no_reference_world = false
  /\ main no_reference_world 100
     = ([PrintBanner;
         PrintRefError
           (FileNotFoundError ("Reference image not found: " ++ REFERENCE_IMAGE))],
        Returned).
Proof.
  split; [reflexivity|].
  apply (main_missing_reference no_reference_world 100). reflexivity.
Defined.

(** ** Five cycles *)

Lemma fired_by_cycle_alert_events (t : list event) (fired : bool) :
  fired_by_cycle (alert_events t) fired = fired_by_cycle t fired.
Proof.
  unfold alert_events.
  revert fired. induction t as [|e t IH]; intros fired; [reflexivity|].
  destruct e; cbn; rewrite ?IH; reflexivity.
Qed.

Lemma int_of_float_comp (x y : Q) : x == y -> int_of_float x = int_of_float y.
Proof.
  intros H. unfold int_of_float.
  rewrite (Qfloor_comp x y H), (Qceiling_comp x y H).
  assert (E : Qle_bool 0 x = Qle_bool 0 y) by (rewrite H; reflexivity).
  rewrite E. reflexivity.
Qed.

Section FiveCycles.

Variable w : World.
Variable reference_img : Mat.

Lemma alert_events_region_log (k i : nat) (r : region) :
  alert_events (region_log w k reference_img i r) = [].
Proof.
  unfold region_log, scan_region, alert_events.
  destruct (capture_region w k r) as [screen_img|e]; [|reflexivity].
  cbn [lift emit bind].
  assert (Hw : cv2_imwrite (DebugRegion i) screen_img = ([ImWrite (DebugRegion i)], Ok tt)
               \/ exists e, cv2_imwrite (DebugRegion i) screen_img = ([], Raise e)).
  { unfold cv2_imwrite, lift, emit.
    destruct screen_img as [m|]; [destruct (empty m)|]; eauto. }
  destruct Hw as [-> | [e ->]]; [|reflexivity].
  cbn [lift emit bind].
  destruct (compare_images w screen_img reference_img) as [s|e]; [|reflexivity].
  cbn [lift emit bind].
  destruct (Qle_bool SIMILARITY_THRESHOLD s); reflexivity.
Qed.

Lemma alert_events_for_regions (k i : nat) (rs : list region) (b : bool) :
  alert_events (fst (for_regions w k i rs reference_img b)) = [].
Proof.
  rewrite for_regions_unfold. cbn [fst]. unfold enumerate.
  generalize (combine (seq i (List.length rs)) rs). intros l.
  induction l as [|[j r] l IH]; [reflexivity|].
  cbn [flat_map]. unfold alert_events in *.
  rewrite filter_app, IH, app_nil_r. apply alert_events_region_log.
Qed.

Lemma alert_events_play_audio (k : nat) : alert_events (fst (play_audio w k)) = [].
Proof.
  unfold play_audio.
  destruct (audio_path_exists w k); [|reflexivity].
  destruct (mixer_play w k) as [[]|e]; reflexivity.
Qed.

(** The alert events of one iteration that is not interrupted. *)
Lemma alert_events_step (s : loop_state) :
  sigint w (cycle_no s) = false ->
  alert_events (fst (step w reference_img s))
  = (if any_match w reference_img (cycle_no s)
     then if Qle_bool COOLDOWN_PERIOD (time_time w (cycle_no s) - last_audio_time s)
          then [PrintPlaying]
          else [PrintCooldown
                  (int_of_float
                     (COOLDOWN_PERIOD - (time_time w (cycle_no s) - last_audio_time s)))]
     else [])
    ++ [Sleep].
Proof.
  intros Hs. rewrite step_unfold, Hs, poll_cycle_unfold. cbn [fst].
  unfold alert_events. rewrite !filter_app.
  fold (alert_events (fst (for_regions w (cycle_no s) 1 REGIONS reference_img false))).
  rewrite alert_events_for_regions. cbn [app filter is_alert_event].
  rewrite alert_trigger_cases. cbn [fst].
  destruct (any_match w reference_img (cycle_no s)); [|reflexivity].
  destruct (Qle_bool COOLDOWN_PERIOD _); [|reflexivity].
  cbn [filter is_alert_event].
  fold (alert_events (fst (play_audio w (cycle_no s)))).
  rewrite alert_events_play_audio. reflexivity.
Qed.

Lemma poll_loop_S (fuel : nat) (s : loop_state) :
  sigint w (cycle_no s) = false ->
  poll_loop w (S fuel) reference_img s
  = (fst (step w reference_img s)
     ++ fst (poll_loop w fuel reference_img (mkLoop (S (cycle_no s)) (next_last w reference_img s))),
     snd (poll_loop w fuel reference_img (mkLoop (S (cycle_no s)) (next_last w reference_img s)))).
Proof.
  intros Hs. cbn [poll_loop]. rewrite step_unfold, Hs. cbn [fst].
  destruct (poll_loop w fuel reference_img _) as [t' st]. reflexivity.
Qed.

(** When every region scores [c] in cycle [k], some region matches
    exactly when [c] reaches the threshold. *)
Lemma any_match_scores (k : nat) (c : Q) :
  (forall r, In r REGIONS -> scores w reference_img k r c) ->
  any_match w reference_img k = Qle_bool SIMILARITY_THRESHOLD c.
Proof.
  intros H. unfold any_match, REGIONS, enumerate. cbn [List.length seq combine existsb].
  assert (Hr : forall i r, In r REGIONS ->
                 region_matched w k reference_img i r = Qle_bool SIMILARITY_THRESHOLD c).
  { intros i r Hin. destruct (H r Hin) as (screen_img & s & Hcap & Hs & Hc).
    rewrite (proj2 (region_log_score w k reference_img i r screen_img s Hcap Hs)).
    rewrite Hc. reflexivity. }
  rewrite !Hr by (unfold REGIONS; cbn; auto).
  destruct (Qle_bool SIMILARITY_THRESHOLD c); reflexivity.
Qed.

End FiveCycles.

Lemma alert_events_poll_loop_S (w : World) (reference_img : Mat) (fuel : nat)
    (s : loop_state) :
  sigint w (cycle_no s) = false ->
  alert_events (fst (poll_loop w (S fuel) reference_img s))
  = alert_events (fst (step w reference_img s))
    ++ alert_events
         (fst (poll_loop w fuel reference_img
                 (mkLoop (S (cycle_no s)) (next_last w reference_img s)))).
Proof.
  intros Hs. rewrite (poll_loop_S w reference_img fuel s Hs). cbn [fst].
  unfold alert_events. apply filter_app.
Qed.

(** C3, as the code has it.  With threshold 0.98, cooldown 20 s, clock
    readings 2 s apart and region scores 0.99, 0.5, 0.985, 0.99, 0.99 over
    five cycles, the first of them once the clock reads at least 20 s:
    the alert fires in cycle 1 only.  Cycle 2 has no match; cycles 3, 4
    and 5 match 4 s, 6 s and 8 s after the alert and are suppressed, with
    16, 14 and 12 seconds reported as remaining. *)
Theorem five_cycles_single_alert (w : World) (reference_img : Mat) :
  (forall k, (1 <= k <= 5)%nat -> sigint w k = false) ->
  COOLDOWN_PERIOD <= time_time w 1 ->
  (forall k, (1 <= k < 5)%nat ->
     time_time w (S k) == time_time w k + CHECK_INTERVAL) ->
  (forall n r, (n < 5)%nat -> In r REGIONS ->
     scores w reference_img (S n) r (nth n score_sequence 0)) ->
  alert_events (fst (poll_loop w 5 reference_img initial_state))
  = [PrintPlaying; Sleep;
     Sleep;
     PrintCooldown 16; Sleep;
     PrintCooldown 14; Sleep;
     PrintCooldown 12; Sleep]
  /\ fired_by_cycle (fst (poll_loop w 5 reference_img initial_state)) false
     = [true; false; false; false; false].
Proof.
  intros Hsig Ht1 Hdt Hsc.
  assert (A1 : any_match w reference_img 1 = true).
  { rewrite (any_match_scores w reference_img 1 _
               (fun r Hr => Hsc 0%nat r ltac:(lia) Hr)). reflexivity. }
  assert (A2 : any_match w reference_img 2 = false).
  { rewrite (any_match_scores w reference_img 2 _
               (fun r Hr => Hsc 1%nat r ltac:(lia) Hr)). reflexivity. }
  assert (A3 : any_match w reference_img 3 = true).
  { rewrite (any_match_scores w reference_img 3 _
               (fun r Hr => Hsc 2%nat r ltac:(lia) Hr)). reflexivity. }
  assert (A4 : any_match w reference_img 4 = true).
  { rewrite (any_match_scores w reference_img 4 _
               (fun r Hr => Hsc 3%nat r ltac:(lia) Hr)). reflexivity. }
  assert (A5 : any_match w reference_img 5 = true).
  { rewrite (any_match_scores w reference_img 5 _
               (fun r Hr => Hsc 4%nat r ltac:(lia) Hr)). reflexivity. }
  pose proof (Hdt 1%nat ltac:(lia)) as T2.
  pose proof (Hdt 2%nat ltac:(lia)) as T3.
  pose proof (Hdt 3%nat ltac:(lia)) as T4.
  pose proof (Hdt 4%nat ltac:(lia)) as T5.
  unfold CHECK_INTERVAL in T2, T3, T4, T5. unfold COOLDOWN_PERIOD in Ht1.
  set (t1 := time_time w 1) in *.
  assert (F1 : Qle_bool COOLDOWN_PERIOD (t1 - 0) = true)
    by (apply Qle_bool_true; unfold COOLDOWN_PERIOD; lra).
  assert (F3 : Qle_bool COOLDOWN_PERIOD (time_time w 3 - t1) = false)
    by (apply Qle_bool_false; unfold COOLDOWN_PERIOD; lra).
  assert (F4 : Qle_bool COOLDOWN_PERIOD (time_time w 4 - t1) = false)
    by (apply Qle_bool_false; unfold COOLDOWN_PERIOD; lra).
  assert (F5 : Qle_bool COOLDOWN_PERIOD (time_time w 5 - t1) = false)
    by (apply Qle_bool_false; unfold COOLDOWN_PERIOD; lra).
  assert (R3 : int_of_float (COOLDOWN_PERIOD - (time_time w 3 - t1)) = 16%Z).
  { rewrite (int_of_float_comp _ 16); [reflexivity|]. unfold COOLDOWN_PERIOD. lra. }
  assert (R4 : int_of_float (COOLDOWN_PERIOD - (time_time w 4 - t1)) = 14%Z).
  { rewrite (int_of_float_comp _ 14); [reflexivity|]. unfold COOLDOWN_PERIOD. lra. }
  assert (R5 : int_of_float (COOLDOWN_PERIOD - (time_time w 5 - t1)) = 12%Z).
  { rewrite (int_of_float_comp _ 12); [reflexivity|]. unfold COOLDOWN_PERIOD. lra. }
  assert (E : alert_events (fst (poll_loop w 5 reference_img initial_state))
              = [PrintPlaying; Sleep; Sleep; PrintCooldown 16; Sleep;
                 PrintCooldown 14; Sleep; PrintCooldown 12; Sleep]).
  { unfold initial_state.
    rewrite alert_events_poll_loop_S, alert_events_step
      by (apply Hsig; cbn; lia).
    unfold next_last. cbn [cycle_no last_audio_time].
    fold t1. rewrite A1, F1. cbn [andb].
    rewrite alert_events_poll_loop_S, alert_events_step
      by (apply Hsig; cbn; lia).
    unfold next_last. cbn [cycle_no last_audio_time].
    rewrite A2. cbn [andb].
    rewrite alert_events_poll_loop_S, alert_events_step
      by (apply Hsig; cbn; lia).
    unfold next_last. cbn [cycle_no last_audio_time].
    rewrite A3, F3, R3. cbn [andb].
    rewrite alert_events_poll_loop_S, alert_events_step
      by (apply Hsig; cbn; lia).
    unfold next_last. cbn [cycle_no last_audio_time].
    rewrite A4, F4, R4. cbn [andb].
    rewrite alert_events_poll_loop_S, alert_events_step
      by (apply Hsig; cbn; lia).
    unfold next_last. cbn [cycle_no last_audio_time].
    rewrite A5, F5, R5. cbn [andb].
    reflexivity. }
  split; [exact E|].
  rewrite <- fired_by_cycle_alert_events, E. reflexivity.
Qed.

Lemma five_cycles_single_alert_witness :
  alert_events (fst (poll_loop demo_world 5 demo_reference initial_state))
  = [PrintPlaying; Sleep;
     Sleep;
     PrintCooldown 16; Sleep;
     PrintCooldown 14; Sleep;
     PrintCooldown 12; Sleep]
  /\ fired_by_cycle (fst (poll_loop demo_world 5 demo_reference initial_state)) false
     = [true; false; false; false; false].
Proof.
  apply (five_cycles_single_alert demo_world demo_reference).
  - intros k _. reflexivity.
  - vm_compute. discriminate.
  - intros k Hk.
    assert (Hc : k = 1%nat \/ k = 2%nat \/ k = 3%nat \/ k = 4%nat) by lia.
    destruct Hc as [-> | [-> | [-> | ->]]]; vm_compute; reflexivity.
  - intros n r Hn Hr.
    assert (Hc : n = 0%nat \/ n = 1%nat \/ n = 2%nat \/ n = 3%nat \/ n = 4%nat) by lia.
    destruct Hr as [<- | [<- | []]];
      destruct Hc as [-> | [-> | [-> | [-> | ->]]]];
      (eexists; eexists; split; [vm_compute; reflexivity|];
       split; [vm_compute; reflexivity|]; vm_compute; reflexivity).
Defined.

(** C3, as stated, fails.  In the concrete world above the five cycles
    score 0.99, 0.5, 0.985, 0.99, 0.99 (each region, each cycle), the clock
    advances by 2 s per cycle, and the alert fires in cycle 1 only: cycle 4
    comes 6 s after the alert of cycle 1, not 20 s. *)
Lemma five_cycles_no_alert_in_cycle_4 :
  let log := fst (poll_loop demo_world 5 demo_reference initial_state) in
  Forall2 Qeq (logged_scores log)
    [99 # 100; 99 # 100; 1 # 2; 1 # 2; 985 # 1000; 985 # 1000;
     99 # 100; 99 # 100; 99 # 100; 99 # 100]
  /\ Forall (fun k => time_time demo_world (S k) - time_time demo_world k
                      == CHECK_INTERVAL) [1; 2; 3; 4]%nat
  /\ time_time demo_world 4 - time_time demo_world 1 == 6
  /\ fired_by_cycle log false = [true; false; false; false; false]
  /\ fired_by_cycle log false <> [true; false; false; true; false].
Proof.
  cbv zeta. split; [|split; [|split; [|split]]].
  - vm_compute. repeat constructor.
  - repeat constructor; vm_compute; reflexivity.
  - vm_compute. reflexivity.
  - vm_compute. reflexivity.
  - vm_compute. discriminate.
Qed.

(** ** Startup *)


(** With a reference that loads, [main] enters the loop in its initial state. *)
Lemma main_enters_loop (w : World) (fuel : nat) (reference_img : Mat) :
  load_reference_image w = Ok reference_img ->
  nonempty reference_img ->
  main w fuel
  = ([PrintBanner; PrintRefLoaded (shape reference_img); ImWrite DebugReference;
      PrintRefSaved]
     ++ fst (poll_loop w fuel reference_img initial_state),
     snd (poll_loop w fuel reference_img initial_state)).
Proof.
  intros Hload Hne. unfold main. rewrite Hload.
  cbn [lift emit bind try_except cv2_imwrite].
  rewrite (nonempty_not_empty _ Hne). cbn [lift emit bind try_except ret app].
  destruct (poll_loop w fuel reference_img initial_state) as [t st]. reflexivity.
Qed.

(** C9.  The loader raises [FileNotFoundError] exactly when the file is
    absent; when the file exists and [cv2.imread] returns [None], reading
    [img.shape] raises [AttributeError] instead. *)
Theorem load_reference_image_not_found (w : World) :
  ((exists msg, load_reference_image w = Raise (FileNotFoundError msg))
   <-> ref_path_exists w = false)
  /\ (ref_path_exists w = true -> cv2_imread w = None ->
      load_reference_image w
      = Raise (AttributeError "'NoneType' object has no attribute 'shape'")).
Proof.
  unfold load_reference_image. split; [split|].
  - intros [msg H]. destruct (ref_path_exists w); [|reflexivity].
    cbn in H. destruct (cv2_imread w) as [[g|m|m]|]; discriminate.
  - intros ->. cbn. eauto.
  - intros -> ->. reflexivity.
Qed.

Lemma load_reference_image_not_found_witness :
  load_reference_image undecodable_reference_world
  = Raise (AttributeError "'NoneType' object has no attribute 'shape'")
  /\ ((exists msg, load_reference_image no_reference_world
                   = Raise (FileNotFoundError msg))
      <-> ref_path_exists no_reference_world = false).
Proof.
  split.
  - apply (proj2 (load_reference_image_not_found undecodable_reference_world));
      reflexivity.
  - exact (proj1 (load_reference_image_not_found no_reference_world)).
Defined.

(** ** The Linux capture backend *)

(** [bytes.decode()] accepts two-, three- and four-byte sequences and
    rejects overlong forms, surrogates and stray Latin-1 bytes. *)
Example utf8_wellformed_samples :
  utf8_wellformed [x63; xc3; xa9] = true
  /\ utf8_wellformed [xe2; x82; xac] = true
  /\ utf8_wellformed [xf0; x9f; x98; x80] = true
  /\ utf8_wellformed [xc0; x80] = false
  /\ utf8_wellformed [xed; xa0; x80] = false
  /\ utf8_wellformed [x63; xe9] = false.
Proof. repeat split. Qed.

(** The backend, case by case on what [grim] did. *)
Lemma capture_region_linux_cases (w : World) (k : nat) (r : region) :
  capture_region_linux w k r
  = match subprocess_run w k (grim_args r) with
    | SpawnError msg => Raise (OSError msg)
    | Exited returncode out err =>
      if Z.eqb returncode 0 then Ok (cv2_imdecode w out)
      else if truthy err then
        match bytes_decode err with
        | Ok text => Raise (RuntimeError ("grim failed: " ++ text))
        | Raise e => Raise e
        end
      else Raise (RuntimeError "grim failed: No error message")
    end.
Proof.
  unfold capture_region_linux, run_checked, grim_args.
  destruct (subprocess_run w k _) as [msg|returncode out err]; [reflexivity|].
  destruct (Z.eqb returncode 0); [reflexivity|].
  cbn. destruct (truthy err); [|reflexivity].
  destruct (bytes_decode err); reflexivity.
Qed.

(** X22.  A [RuntimeError] comes from a non-zero exit only, and a non-zero
    exit whose diagnostics are empty or well-formed UTF-8 raises it. *)
Lemma capture_region_linux_runtime_error (w : World) (k : nat) (r : region) :
  (forall msg, capture_region_linux w k r = Raise (RuntimeError msg) ->
     exists returncode out err,
       subprocess_run w k (grim_args r) = Exited returncode out err
       /\ returncode <> 0%Z)
  /\ (forall returncode out err,
        subprocess_run w k (grim_args r) = Exited returncode out err ->
        returncode <> 0%Z -> utf8_wellformed err = true ->
        exists msg, capture_region_linux w k r = Raise (RuntimeError msg)).
Proof.
  rewrite capture_region_linux_cases. split.
  - intros msg H.
    destruct (subprocess_run w k (grim_args r)) as [m|returncode out err];
      [discriminate|].
    exists returncode, out, err. split; [reflexivity|].
    intros ->. discriminate.
  - intros returncode out err -> Hrc Hutf.
    rewrite (proj2 (Z.eqb_neq _ _) Hrc).
    unfold bytes_decode. rewrite Hutf.
    destruct (truthy err); eauto.
Qed.


(** C10.  A non-zero exit of [grim] does not always raise the backend's
    [RuntimeError]: when the captured diagnostics are not UTF-8, decoding
    them in the handler raises [UnicodeDecodeError], and that is what
    leaves the backend. *)
Theorem capture_region_linux_undecodable_stderr :
  (exists returncode out err,
     subprocess_run latin1_world 1 (grim_args (mkRegion 834 56 35 31))
     = Exited returncode out err /\ returncode <> 0%Z)
  /\ capture_region_linux latin1_world 1 (mkRegion 834 56 35 31)
     = Raise UnicodeDecodeError.
Proof.
  split.
  - eexists; eexists; eexists. split; [reflexivity|discriminate].
  - reflexivity.
Qed.

(** * Further properties *)

(** ** Audio playback *)

Lemma play_audio_log (w : World) (k : nat) :
  fst (play_audio w k)
  = if audio_path_exists w k
    then match mixer_play w k with
         | Ok _ => [MixerPlay]
         | Raise e => [PrintAudioError e]
         end
    else [PrintAudioWarning].
Proof.
  unfold play_audio.
  destruct (audio_path_exists w k); [|reflexivity].
  destruct (mixer_play w k) as [[]|e]; reflexivity.
Qed.

(** X1.  A failed playback is never fatal and still starts the cooldown:
    when a match comes after the cooldown, the alert step returns the
    clock reading as the new [last_audio_time] whether or not the audio
    played; the mixer's success line is in the log exactly when the file
    exists and the mixer accepted it; a missing file logs the warning
    only, a mixer error logs that error only. *)
Theorem alert_survives_audio_failure (w : World) (k : nat) (last : Q) :
  COOLDOWN_PERIOD <= time_time w k - last ->
  snd (alert_trigger w k true last) = Ok (time_time w k)
  /\ (In MixerPlay (fst (alert_trigger w k true last))
      <-> audio_path_exists w k = true /\ mixer_play w k = Ok tt)
  /\ (audio_path_exists w k = false ->
      fst (alert_trigger w k true last) = [PrintPlaying; PrintAudioWarning])
  /\ (forall e, audio_path_exists w k = true -> mixer_play w k = Raise e ->
      fst (alert_trigger w k true last) = [PrintPlaying; PrintAudioError e]).
Proof.
  intros H. rewrite (alert_trigger_fires w k last H). cbn [fst snd].
  rewrite play_audio_log. split; [reflexivity|]. split; [|split].
  - destruct (audio_path_exists w k).
    + destruct (mixer_play w k) as [[]|e]; cbn; split.
      * auto.
      * auto.
      * intros [F | [F | []]]; discriminate.
      * intros [_ F]; discriminate.
    + cbn. split.
      * intros [F | [F | []]]; discriminate.
      * intros [F _]; discriminate.
  - intros ->. reflexivity.
  - intros e -> ->. reflexivity.
Qed.

Lemma alert_survives_audio_failure_witness :
  snd (alert_trigger silent_world 1 true 0) = Ok (time_time silent_world 1)
  /\ fst (alert_trigger silent_world 1 true 0) = [PrintPlaying; PrintAudioWarning]
  /\ fst (alert_trigger broken_mixer_world 1 true 0)
     = [PrintPlaying; PrintAudioError (OtherException "pygame.error")].
Proof.
  assert (H : COOLDOWN_PERIOD <= time_time silent_world 1 - 0)
    by (vm_compute; discriminate).
  assert (H' : COOLDOWN_PERIOD <= time_time broken_mixer_world 1 - 0)
    by (vm_compute; discriminate).
  pose proof (alert_survives_audio_failure silent_world 1 0 H)
    as (Hs & _ & Hmiss & _).
  pose proof (alert_survives_audio_failure broken_mixer_world 1 0 H')
    as (_ & _ & _ & Hmix).
  split; [exact Hs|]. split.
  - apply Hmiss. reflexivity.
  - apply Hmix; reflexivity.
Defined.

(** ** Platform dispatch *)

Lemma for_regions_all_fail (w : World) (k : nat) (reference_img : Mat)
    (e : exception) (rs : list region) (i : nat) (match_found : bool) :
  (forall r, In r rs -> capture_region w k r = Raise e) ->
  for_regions w k i rs reference_img match_found
  = (flat_map (failed_capture_log e) (enumerate i rs), Ok match_found).
Proof.
  revert i. induction rs as [|r rs IH]; intros i H; [reflexivity|].
  cbn [for_regions]. unfold scan_region at 1.
  rewrite (H r (or_introl eq_refl)). cbn [lift emit bind try_except ret app].
  rewrite (IH (S i)) by (intros r' Hr'; apply H; right; exact Hr').
  reflexivity.
Qed.

(** X2.  On a host that is neither Windows nor Linux the monitor does not
    stop: every cycle calls the capture for each region, logs
    [NotImplementedError] for each, finds no match, plays nothing and
    leaves [last_audio_time] as it was. *)
Theorem unsupported_os_cycle (w : World) (reference_img : Mat) (s : loop_state) :
  String.eqb (platform_system w) "Windows" = false ->
  String.eqb (platform_system w) "Linux" = false ->
  poll_cycle w reference_img s
  = (flat_map
       (failed_capture_log
          (NotImplementedError ("Unsupported OS: " ++ platform_system w)))
       (enumerate 1 REGIONS)
     ++ [PrintNewline],
     Ok (last_audio_time s)).
Proof.
  intros Hw Hl. unfold poll_cycle.
  rewrite (for_regions_all_fail w (cycle_no s) reference_img
             (NotImplementedError ("Unsupported OS: " ++ platform_system w))).
  - reflexivity.
  - intros r _. unfold capture_region. rewrite Hw, Hl. reflexivity.
Qed.

Lemma unsupported_os_cycle_witness :
  poll_cycle darwin_world demo_reference initial_state
  = ([CaptureRegion (mkRegion 834 56 35 31);
      PrintRegionError 1 (NotImplementedError "Unsupported OS: Darwin");
      CaptureRegion (mkRegion 835 1830 35 31);
      PrintRegionError 2 (NotImplementedError "Unsupported OS: Darwin");
      PrintNewline],
     Ok 0).
Proof.
  apply (unsupported_os_cycle darwin_world demo_reference initial_state);
    reflexivity.
Defined.

(** X3.  On Windows the capture never yields a null grid: it is the
    grabbed screenshot without its alpha plane, or the exception of the
    grab; [grim] plays no part. *)
Theorem capture_region_on_windows (w : World) (k : nat) (r : region) :
  platform_system w = "Windows"%string ->
  capture_region w k r <> Ok None
  /\ capture_region w k r
     = match mss_grab w k r with
       | Ok screenshot => Ok (Some (bgr screenshot))
       | Raise e => Raise e
       end.
Proof.
  intros H. unfold capture_region, capture_region_windows. rewrite H.
  cbn [String.eqb Ascii.eqb Bool.eqb]. destruct (mss_grab w k r); cbn.
  - split; [discriminate|reflexivity].
  - split; [discriminate|reflexivity].
Qed.

Lemma capture_region_on_windows_witness :
  platform_system windows_world = "Windows"%string
  /\ capture_region windows_world 1 (mkRegion 834 56 35 31) <> Ok None
  /\ capture_region windows_world 1 (mkRegion 834 56 35 31)
     = match mss_grab windows_world 1 (mkRegion 834 56 35 31) with
       | Ok screenshot => Ok (Some (bgr screenshot))
       | Raise e => Raise e
       end.
Proof.
  split; [reflexivity|].
  apply (capture_region_on_windows windows_world 1 (mkRegion 834 56 35 31)).
  reflexivity.
Defined.

(** ** Startup, again *)

(** X4.  Whatever makes the loader raise (no file, an undecodable file, a
    single-channel image), [main] prints the banner and that error and
    returns; the loop is never entered. *)
Theorem main_returns_on_load_failure (w : World) (e : exception) (fuel : nat) :
  load_reference_image w = Raise e ->
  main w fuel = ([PrintBanner; PrintRefError e], Returned).
Proof.
  intros H. unfold main. rewrite H. reflexivity.
Qed.

Lemma main_returns_on_load_failure_witness :
  load_reference_image gray_reference_world
  = Raise (IndexError "tuple index out of range")
  /\ main gray_reference_world 7
     = ([PrintBanner; PrintRefError (IndexError "tuple index out of range")],
        Returned).
Proof.
  split; [reflexivity|].
  apply (main_returns_on_load_failure gray_reference_world). reflexivity.
Defined.

(** X5.  The loader returns a grid exactly when the file exists and
    decodes to a 3-channel image, returned as it is, or to a 4-channel
    image, returned without its alpha plane. *)
Theorem load_reference_image_success (w : World) (img : Mat) :
  load_reference_image w = Ok img
  <-> ref_path_exists w = true
      /\ (cv2_imread w = Some (Color img)
          \/ exists m, cv2_imread w = Some (ColorAlpha m) /\ bgr m = img).
Proof.
  unfold load_reference_image, cvtColor_BGRA2BGR. split.
  - destruct (ref_path_exists w); [|discriminate]. cbn.
    destruct (cv2_imread w) as [[g|m|m]|]; try discriminate.
    + intros [= ->]. auto.
    + intros [= <-]. split; [reflexivity|]. right. exists m. auto.
  - intros [-> [-> | (m & -> & <-)]]; reflexivity.
Qed.

Lemma load_reference_image_success_witness :
  load_reference_image alpha_reference_world = Ok demo_reference
  /\ load_reference_image demo_world = Ok demo_reference.
Proof.
  split.
  - apply (proj2 (load_reference_image_success alpha_reference_world demo_reference)).
    split; [reflexivity|]. right.
    exists (mkMat4 demo_reference opaque_alpha). split; reflexivity.
  - apply (proj2 (load_reference_image_success demo_world demo_reference)).
    split; [reflexivity|]. left. reflexivity.
Defined.


(** ** The only way out of the loop *)

Section Termination.

Variable w : World.
Variable reference_img : Mat.

Lemma count_events_app (p : event -> bool) (t1 t2 : list event) :
  count_events p (t1 ++ t2) = (count_events p t1 + count_events p t2)%nat.
Proof.
  unfold count_events. rewrite filter_app, length_app. reflexivity.
Qed.

Lemma count_events_alert_events (p : event -> bool) (t : list event) :
  (forall e, p e = true -> is_alert_event e = true) ->
  count_events p (alert_events t) = count_events p t.
Proof.
  intros H. unfold count_events, alert_events.
  induction t as [|e t IH]; [reflexivity|]. cbn [filter].
  destruct (is_alert_event e) eqn:Ea; cbn [filter].
  - destruct (p e); cbn; rewrite IH; reflexivity.
  - destruct (p e) eqn:Ep; [rewrite (H e Ep) in Ea; discriminate|]. exact IH.
Qed.

(** One uninterrupted iteration sleeps once. *)
Lemma sleeps_step (s : loop_state) :
  sigint w (cycle_no s) = false ->
  count_events is_sleep (fst (step w reference_img s)) = 1%nat.
Proof.
  intros Hs.
  rewrite <- count_events_alert_events by (intros []; cbn; congruence).
  rewrite (alert_events_step w reference_img s Hs).
  destruct (any_match w reference_img (cycle_no s)); [|reflexivity].
  destruct (Qle_bool COOLDOWN_PERIOD _); reflexivity.
Qed.

(** One uninterrupted iteration plays at most once, and exactly when
    [last_audio_time] moves. *)
Lemma alerts_step (s : loop_state) :
  sigint w (cycle_no s) = false ->
  count_events is_playing (fst (step w reference_img s))
  = if any_match w reference_img (cycle_no s)
       && Qle_bool COOLDOWN_PERIOD
            (time_time w (cycle_no s) - last_audio_time s)
    then 1%nat else 0%nat.
Proof.
  intros Hs.
  rewrite <- count_events_alert_events by (intros []; cbn; congruence).
  rewrite (alert_events_step w reference_img s Hs).
  destruct (any_match w reference_img (cycle_no s)); [|reflexivity].
  destruct (Qle_bool COOLDOWN_PERIOD _); reflexivity.
Qed.

Lemma captures_for_regions (k i : nat) (rs : list region) (b : bool) :
  filter is_capture (fst (for_regions w k i rs reference_img b))
  = map CaptureRegion rs.
Proof.
  rewrite for_regions_unfold. cbn [fst]. rewrite filter_flat_map_captures.
  rewrite <- (enumerate_snd i rs) at 2. rewrite map_map. reflexivity.
Qed.

Lemma captures_alert_trigger (k : nat) (b : bool) (last : Q) :
  filter is_capture (fst (alert_trigger w k b last)) = [].
Proof.
  rewrite alert_trigger_cases. cbn [fst].
  destruct b; [|reflexivity].
  destruct (Qle_bool COOLDOWN_PERIOD _); [|reflexivity].
  cbn [filter is_capture]. rewrite play_audio_log.
  destruct (audio_path_exists w k); [|reflexivity].
  destruct (mixer_play w k); reflexivity.
Qed.

(** One iteration calls the capture once per region, in order. *)
Lemma captures_step (s : loop_state) :
  filter is_capture (fst (step w reference_img s)) = map CaptureRegion REGIONS.
Proof.
  rewrite step_unfold, poll_cycle_unfold. cbn [fst].
  rewrite !filter_app, captures_for_regions. cbn [filter is_capture].
  rewrite captures_alert_trigger.
  destruct (sigint w (cycle_no s)); cbn; rewrite ?app_nil_r; reflexivity.
Qed.

End Termination.

Lemma alert_events_poll_cycle (w : World) (reference_img : Mat) (s : loop_state) :
  alert_events (fst (poll_cycle w reference_img s))
  = if any_match w reference_img (cycle_no s)
    then if Qle_bool COOLDOWN_PERIOD (time_time w (cycle_no s) - last_audio_time s)
         then [PrintPlaying]
         else [PrintCooldown
                 (int_of_float
                    (COOLDOWN_PERIOD
                     - (time_time w (cycle_no s) - last_audio_time s)))]
    else [].
Proof.
  rewrite poll_cycle_unfold. cbn [fst]. unfold alert_events.
  rewrite filter_app.
  fold (alert_events (fst (for_regions w (cycle_no s) 1 REGIONS reference_img false))).
  rewrite alert_events_for_regions. cbn [app filter is_alert_event].
  rewrite alert_trigger_cases. cbn [fst].
  destruct (any_match w reference_img (cycle_no s)); [|reflexivity].
  destruct (Qle_bool COOLDOWN_PERIOD _); [|reflexivity].
  cbn [filter is_alert_event].
  fold (alert_events (fst (play_audio w (cycle_no s)))).
  rewrite alert_events_play_audio. reflexivity.
Qed.

Lemma sleeps_poll_cycle (w : World) (reference_img : Mat) (s : loop_state) :
  count_events is_sleep (fst (poll_cycle w reference_img s)) = 0%nat.
Proof.
  rewrite <- count_events_alert_events by (intros []; cbn; congruence).
  rewrite alert_events_poll_cycle.
  destruct (any_match w reference_img (cycle_no s)); [|reflexivity].
  destruct (Qle_bool COOLDOWN_PERIOD _); reflexivity.
Qed.

(** X7.  Without Ctrl+C the loop has no way out: after any number of
    cycles it is still running, it has slept once per cycle and it has
    called the capture for every region in every cycle, in order, whatever
    the captures, the scores and the audio did. *)
Theorem poll_loop_runs_on (w : World) (reference_img : Mat) (fuel : nat)
    (s : loop_state) :
  (forall k, (cycle_no s <= k < cycle_no s + fuel)%nat -> sigint w k = false) ->
  exists s',
    snd (poll_loop w fuel reference_img s) = StillRunning s'
    /\ cycle_no s' = (cycle_no s + fuel)%nat
    /\ count_events is_sleep (fst (poll_loop w fuel reference_img s)) = fuel
    /\ filter is_capture (fst (poll_loop w fuel reference_img s))
       = List.concat (repeat (map CaptureRegion REGIONS) fuel).
Proof.
  revert s. induction fuel as [|fuel IH]; intros s H.
  - exists s. cbn. repeat split; auto.
  - assert (Hs : sigint w (cycle_no s) = false) by (apply H; lia).
    rewrite (poll_loop_S w reference_img fuel s Hs). cbn [fst snd].
    destruct (IH (mkLoop (S (cycle_no s)) (next_last w reference_img s)))
      as (s' & Hst & Hno & Hsl & Hcap).
    { intros k Hk. apply H. cbn [cycle_no] in Hk. lia. }
    exists s'. split; [exact Hst|]. split; [cbn [cycle_no] in Hno; lia|]. split.
    + rewrite count_events_app, (sleeps_step w reference_img s Hs), Hsl. reflexivity.
    + rewrite filter_app, captures_step, Hcap. reflexivity.
Qed.

Lemma poll_loop_runs_on_witness :
  exists s',
    snd (poll_loop demo_world 5 demo_reference initial_state) = StillRunning s'
    /\ cycle_no s' = (cycle_no initial_state + 5)%nat
    /\ count_events is_sleep (fst (poll_loop demo_world 5 demo_reference initial_state))
       = 5%nat
    /\ filter is_capture (fst (poll_loop demo_world 5 demo_reference initial_state))
       = List.concat (repeat (map CaptureRegion REGIONS) 5).
Proof.
  apply (poll_loop_runs_on demo_world demo_reference 5 initial_state).
  intros k _. reflexivity.
Defined.

(** X8.  Ctrl+C during the sleep of a cycle ends the run right there: the
    log ends with that sleep and the farewell line, one sleep was logged
    for each cycle up to that one, and observing for longer shows nothing
    more. *)
Theorem poll_loop_interrupted (w : World) (reference_img : Mat) (n fuel : nat)
    (s : loop_state) :
  (forall k, (cycle_no s <= k < cycle_no s + n)%nat -> sigint w k = false) ->
  sigint w (cycle_no s + n) = true ->
  (n < fuel)%nat ->
  poll_loop w fuel reference_img s = poll_loop w (S n) reference_img s
  /\ snd (poll_loop w fuel reference_img s) = Interrupted
  /\ count_events is_sleep (fst (poll_loop w fuel reference_img s)) = S n
  /\ exists t, fst (poll_loop w fuel reference_img s) = t ++ [Sleep; PrintStopped].
Proof.
  revert s fuel. induction n as [|n IH]; intros s fuel Hno Hint Hlt.
  - rewrite Nat.add_0_r in Hint.
    destruct fuel as [|fuel]; [lia|].
    assert (E : forall f, poll_loop w (S f) reference_img s
                = (fst (poll_cycle w reference_img s) ++ [Sleep; PrintStopped],
                   Interrupted)).
    { intros f. cbn [poll_loop]. rewrite step_unfold, Hint. reflexivity. }
    rewrite !E. cbn [fst snd]. split; [reflexivity|]. split; [reflexivity|]. split.
    + rewrite count_events_app, sleeps_poll_cycle. reflexivity.
    + eexists. reflexivity.
  - destruct fuel as [|fuel]; [lia|].
    assert (Hs : sigint w (cycle_no s) = false) by (apply Hno; lia).
    rewrite (poll_loop_S w reference_img fuel s Hs).
    rewrite (poll_loop_S w reference_img (S n) s Hs).
    destruct (IH (mkLoop (S (cycle_no s)) (next_last w reference_img s)) fuel)
      as (Heq & Hst & Hsl & t & Ht).
    { intros k Hk. apply Hno. cbn [cycle_no] in Hk. lia. }
    { cbn [cycle_no]. rewrite <- Hint. f_equal. lia. }
    { lia. }
    rewrite Heq. cbn [fst snd]. split; [reflexivity|].
    rewrite Heq in Hst, Hsl, Ht.
    split; [exact Hst|]. split.
    + rewrite count_events_app, (sleeps_step w reference_img s Hs), Hsl. reflexivity.
    + exists (fst (step w reference_img s) ++ t). rewrite Ht, app_assoc. reflexivity.
Qed.

Lemma poll_loop_interrupted_witness :
  poll_loop interrupted_world 10 demo_reference initial_state
  = poll_loop interrupted_world 3 demo_reference initial_state
  /\ snd (poll_loop interrupted_world 10 demo_reference initial_state) = Interrupted
  /\ count_events is_sleep
       (fst (poll_loop interrupted_world 10 demo_reference initial_state)) = 3%nat
  /\ exists t, fst (poll_loop interrupted_world 10 demo_reference initial_state)
               = t ++ [Sleep; PrintStopped].
Proof.
  apply (poll_loop_interrupted interrupted_world demo_reference 2 10 initial_state).
  - intros k Hk. cbn in Hk.
    assert (Hc : k = 1%nat \/ k = 2%nat) by lia.
    destruct Hc as [-> | ->]; reflexivity.
  - reflexivity.
  - lia.
Defined.

(** X9.  Alerts are rate-limited by the clock readings themselves: in any
    stretch of a run, [last_audio_time] grows by at least one cooldown
    period per alert fired.  From the initial state, after [m] alerts it is
    at least [20 * m]. *)
Theorem alerts_rate_limited (w : World) (reference_img : Mat) (fuel : nat)
    (s : loop_state) (t : list event) (s' : loop_state) :
  poll_loop w fuel reference_img s = (t, StillRunning s') ->
  last_audio_time s
  + COOLDOWN_PERIOD * inject_Z (Z.of_nat (count_events is_playing t))
  <= last_audio_time s'.
Proof.
  revert s t. induction fuel as [|fuel IH]; intros s t H.
  - cbn in H. injection H as <- <-.
    change (inject_Z (Z.of_nat (count_events is_playing []))) with 0.
    unfold COOLDOWN_PERIOD. lra.
  - destruct (sigint w (cycle_no s)) eqn:Hs.
    + cbn [poll_loop] in H. rewrite step_unfold, Hs in H. discriminate.
    + rewrite (poll_loop_S w reference_img fuel s Hs) in H.
      destruct (poll_loop w fuel reference_img
                  (mkLoop (S (cycle_no s)) (next_last w reference_img s)))
        as [t' st] eqn:E.
      cbn [fst snd] in H. injection H as <- ->.
      apply IH in E. cbn [last_audio_time] in E.
      rewrite count_events_app, (alerts_step w reference_img s Hs).
      rewrite Nat2Z.inj_add, inject_Z_plus.
      unfold next_last in E.
      destruct (any_match w reference_img (cycle_no s)
                && Qle_bool COOLDOWN_PERIOD
                     (time_time w (cycle_no s) - last_audio_time s)) eqn:Ec.
      * apply andb_prop in Ec. destruct Ec as [_ Ec].
        apply Qle_bool_iff in Ec.
        change (inject_Z (Z.of_nat 1)) with 1.
        unfold COOLDOWN_PERIOD in *. lra.
      * change (inject_Z (Z.of_nat 0)) with 0.
        unfold COOLDOWN_PERIOD in *. lra.
Qed.

Lemma alerts_rate_limited_witness :
  last_audio_time initial_state
  + COOLDOWN_PERIOD
    * inject_Z (Z.of_nat (count_events is_playing
                            (fst (poll_loop demo_world 12 demo_reference initial_state))))
  <= last_audio_time (mkLoop 13 (time_time demo_world 11)).
Proof.
  apply (alerts_rate_limited demo_world demo_reference 12 initial_state).
  vm_compute. reflexivity.
Defined.

(** ** More on the score *)

Lemma spec_reference_equal_shape (w : World) (a b : Mat) :
  rows a = rows b -> cols a = cols b -> spec_reference_as_scored w a b = b.
Proof.
  intros Hr Hc. unfold spec_reference_as_scored.
  destruct (Nat.eq_dec (rows a) (rows b)); [|contradiction].
  destruct (Nat.eq_dec (cols a) (cols b)); [|contradiction].
  reflexivity.
Qed.

Lemma np_mean_ext (a b : Array2 Q) :
  rows a = rows b -> cols a = cols b ->
  (forall i j, (i < rows a)%nat -> (j < cols a)%nat -> at_ a i j == at_ b i j) ->
  np_mean a == np_mean b.
Proof.
  intros Hr Hc H. unfold np_mean. rewrite <- Hr, <- Hc.
  apply Qdiv_comp; [|reflexivity].
  apply sum_upto_ext. intros i Hi. apply sum_upto_ext. intros j Hj.
  apply H; assumption.
Qed.

Lemma np_mean_const (a : Array2 Q) (c : Q) :
  nonempty a ->
  (forall i j, (i < rows a)%nat -> (j < cols a)%nat -> at_ a i j == c) ->
  np_mean a == c.
Proof.
  intros [Hr Hc] H. unfold np_mean.
  set (R := inject_Z (Z.of_nat (rows a))).
  set (C := inject_Z (Z.of_nat (cols a))).
  assert (HR : 0 < R) by (apply inject_Z_of_nat_pos; exact Hr).
  assert (HC : 0 < C) by (apply inject_Z_of_nat_pos; exact Hc).
  assert (HN : inject_Z (Z.of_nat (rows a * cols a)) == R * C)
    by (rewrite Nat2Z.inj_mul, inject_Z_mult; reflexivity).
  assert (HRC : 0 < R * C) by (apply Qmult_lt_0_compat; assumption).
  assert (Hsum : R * (C * c)
                 <= sum_upto (rows a) (fun i => sum_upto (cols a) (fun j => at_ a i j))
                 <= R * (C * c)).
  { apply sum_upto_bounds. intros i Hi.
    apply sum_upto_bounds. intros j Hj. rewrite (H i j Hi Hj). split; apply Qle_refl. }
  rewrite HN. destruct Hsum as [Hlo Hhi]. apply Qle_antisym.
  - apply Qle_shift_div_r; [exact HRC|]. lra.
  - apply Qle_shift_div_l; [exact HRC|]. lra.
Qed.

Lemma sum_upto_nonneg (n : nat) (f : nat -> Q) :
  (forall i, (i < n)%nat -> 0 <= f i) -> 0 <= sum_upto n f.
Proof.
  induction n as [|n IH]; intros H; simpl; [apply Qle_refl|].
  assert (H1 := IH (fun i Hi => H i (Nat.lt_lt_succ_r _ _ Hi))).
  assert (H2 := H n (Nat.lt_succ_diag_r n)). lra.
Qed.

(** A sum of non-negative terms is 0 only if every term is. *)
Lemma sum_upto_zero_inv (n : nat) (f : nat -> Q) :
  (forall i, (i < n)%nat -> 0 <= f i) -> sum_upto n f == 0 ->
  forall i, (i < n)%nat -> f i == 0.
Proof.
  induction n as [|n IH]; intros H Hs i Hi; [lia|].
  simpl in Hs.
  assert (H1 := sum_upto_nonneg n f (fun i Hi => H i (Nat.lt_lt_succ_r _ _ Hi))).
  assert (H2 := H n (Nat.lt_succ_diag_r n)).
  assert (Hn : f n == 0) by lra.
  assert (Hp : sum_upto n f == 0) by lra.
  destruct (Nat.eq_dec i n) as [->|Hne]; [exact Hn|].
  apply IH; [intros; apply H; lia | exact Hp | lia].
Qed.

Lemma np_mean_zero_inv (a : Array2 Q) :
  nonempty a ->
  (forall i j, (i < rows a)%nat -> (j < cols a)%nat -> 0 <= at_ a i j) ->
  np_mean a == 0 ->
  forall i j, (i < rows a)%nat -> (j < cols a)%nat -> at_ a i j == 0.
Proof.
  intros [Hr Hc] Hpos Hm i j Hi Hj.
  unfold np_mean in Hm.
  assert (HN : 0 < inject_Z (Z.of_nat (rows a * cols a)))
    by (apply inject_Z_of_nat_pos; nia).
  set (N := inject_Z (Z.of_nat (rows a * cols a))) in *.
  set (S := sum_upto (rows a) (fun i => sum_upto (cols a) (fun j => at_ a i j))) in *.
  assert (HS : S == 0).
  { assert (E : S == S / N * N) by (field; lra). rewrite E, Hm. ring. }
  assert (Hrow : sum_upto (cols a) (fun j => at_ a i j) == 0).
  { apply (sum_upto_zero_inv (rows a)
             (fun i => sum_upto (cols a) (fun j => at_ a i j))); [|exact HS|exact Hi].
    intros i' Hi'. apply sum_upto_nonneg. intros j' Hj'. apply Hpos; assumption. }
  apply (sum_upto_zero_inv (cols a) (fun j => at_ a i j)); [|exact Hrow|exact Hj].
  intros j' Hj'. apply Hpos; assumption.
Qed.

Lemma astype_float_inj (b1 b2 : byte) :
  astype_float b1 == astype_float b2 -> b1 = b2.
Proof.
  unfold astype_float. intros H.
  apply (proj1 (inject_Z_injective _ _)) in H. apply N2Z.inj in H.
  assert (E : Byte.of_N (Byte.to_N b1) = Byte.of_N (Byte.to_N b2)) by (rewrite H; reflexivity).
  rewrite !Byte.of_to_N in E. injection E as ->. reflexivity.
Qed.

Lemma score_of_mean (m : Q) : 1 - m / 255 ^ 2 == 1 - m / 65025.
Proof.
  assert (E : 255 ^ 2 == 65025) by reflexivity. rewrite E. reflexivity.
Qed.

(** X10.  On two non-empty grids of the same dimensions the score does not
    depend on which one is the candidate. *)
Theorem compare_images_symmetric (w : World) (a b : Mat) :
  nonempty a -> rows a = rows b -> cols a = cols b ->
  exists s1 s2,
    compare_images w (Some a) b = Ok s1
    /\ compare_images w (Some b) a = Ok s2
    /\ s1 == s2.
Proof.
  intros Ha Hr Hc.
  assert (Hb : nonempty b) by (destruct Ha; split; lia).
  eexists. eexists.
  split; [apply compare_images_value; assumption|].
  split; [apply compare_images_value; assumption|].
  rewrite (spec_reference_equal_shape w a b Hr Hc).
  rewrite (spec_reference_equal_shape w b a (eq_sym Hr) (eq_sym Hc)).
  assert (E : np_mean (squared_differences w a b)
              == np_mean (squared_differences w b a)).
  { apply np_mean_ext; [exact Hr|exact Hc|]. intros i j _ _. simpl. ring. }
  rewrite E. reflexivity.
Qed.

Lemma compare_images_symmetric_witness :
  exists s1 s2,
    compare_images demo_world (Some demo_reference)
      (demo_image [[88; 7; 3; 1; 0; 0; 0; 0]%N]) = Ok s1
    /\ compare_images demo_world (Some (demo_image [[88; 7; 3; 1; 0; 0; 0; 0]%N]))
         demo_reference = Ok s2
    /\ s1 == s2.
Proof.
  apply (compare_images_symmetric demo_world demo_reference
           (demo_image [[88; 7; 3; 1; 0; 0; 0; 0]%N])).
  - unfold nonempty. simpl. lia.
  - reflexivity.
  - reflexivity.
Defined.

Lemma uniform_offset_score (w : World) (a b : Mat) (d : Q) :
  nonempty a -> rows a = rows b -> cols a = cols b ->
  (forall i j, (i < rows a)%nat -> (j < cols a)%nat ->
     Qabs (spec_gray w a i j - spec_gray w b i j) == d) ->
  exists s, compare_images w (Some a) b = Ok s /\ s == 1 - d ^ 2 / 65025.
Proof.
  intros Ha Hr Hc H.
  assert (Hb : nonempty b) by (destruct Ha; split; lia).
  eexists. split; [apply compare_images_value; assumption|].
  rewrite (spec_reference_equal_shape w a b Hr Hc).
  assert (E : np_mean (squared_differences w a b) == d ^ 2).
  { apply np_mean_const; [exact Ha|]. intros i j Hi Hj. simpl at_.
    specialize (H i j Hi Hj). revert H.
    apply Qabs_case; intros _ <-; simpl; ring. }
  rewrite score_of_mean, E. reflexivity.
Qed.

(** X11.  When the gray values of two non-empty grids of the same
    dimensions differ by the same amount [d] at every pixel, the score is
    [1 - d^2 / 65025]; with [d = 255] (white against black) it is 0. *)
Theorem compare_images_uniform_offset (w : World) (a b : Mat) (d : Q) :
  nonempty a -> rows a = rows b -> cols a = cols b ->
  (forall i j, (i < rows a)%nat -> (j < cols a)%nat ->
     Qabs (spec_gray w a i j - spec_gray w b i j) == d) ->
  exists s, compare_images w (Some a) b = Ok s
            /\ s == 1 - d ^ 2 / 65025
            /\ (d == 255 -> s == 0).
Proof.
  intros Ha Hr Hc H.
  destruct (uniform_offset_score w a b d Ha Hr Hc H) as (s & Hs & E).
  exists s. split; [exact Hs|]. split; [exact E|].
  intros Hd. rewrite E, Hd. reflexivity.
Qed.

Lemma compare_images_uniform_offset_witness :
  exists s, compare_images demo_world (Some (demo_image [[255; 255]%N]))
              (demo_image [[0; 0]%N]) = Ok s
            /\ s == 1 - 255 ^ 2 / 65025
            /\ (255 == 255 -> s == 0).
Proof.
  apply (compare_images_uniform_offset demo_world
           (demo_image [[255; 255]%N]) (demo_image [[0; 0]%N]) 255).
  - unfold nonempty. simpl. lia.
  - reflexivity.
  - reflexivity.
  - intros i j Hi Hj. simpl in Hi, Hj.
    assert (i = 0%nat) by lia. assert (j = 0%nat \/ j = 1%nat) by lia.
    subst i. destruct H0 as [-> | ->]; vm_compute; reflexivity.
Defined.

(** X12.  On two non-empty grids of the same dimensions the score is 1
    exactly when the two grids have the same gray value at every pixel. *)
Theorem compare_images_one_iff_same_gray (w : World) (a b : Mat) :
  nonempty a -> rows a = rows b -> cols a = cols b ->
  exists s, compare_images w (Some a) b = Ok s
            /\ (s == 1 <->
                forall i j, (i < rows a)%nat -> (j < cols a)%nat ->
                  bgr2gray w (at_ a i j) = bgr2gray w (at_ b i j)).
Proof.
  intros Ha Hr Hc.
  assert (Hb : nonempty b) by (destruct Ha; split; lia).
  eexists. split; [apply compare_images_value; assumption|].
  rewrite (spec_reference_equal_shape w a b Hr Hc), score_of_mean.
  set (m := np_mean (squared_differences w a b)).
  split.
  - intros Hs i j Hi Hj.
    assert (Hm : m == 0).
    { assert (E : m == m / 65025 * 65025) by (field; lra). rewrite E. lra. }
    pose proof (np_mean_zero_inv (squared_differences w a b) Ha
                  (fun i j _ _ => proj1 (squared_differences_range w a b i j))
                  Hm i j Hi Hj) as Hz.
    simpl in Hz.
    apply astype_float_inj. unfold spec_gray in Hz.
    set (x := astype_float (bgr2gray w (at_ a i j))) in *.
    set (y := astype_float (bgr2gray w (at_ b i j))) in *.
    assert (Hxy : (x - y) * (x - y) == 0) by exact Hz.
    apply Qmult_integral in Hxy. destruct Hxy; lra.
  - intros H.
    assert (Hm : m == 0).
    { apply np_mean_zero. intros i j Hi Hj. simpl. unfold spec_gray.
      rewrite (H i j Hi Hj). ring. }
    rewrite Hm. unfold Qdiv. ring.
Qed.

Lemma compare_images_one_iff_same_gray_witness :
  exists s, compare_images demo_world (Some demo_small) demo_small = Ok s
            /\ (s == 1 <->
                forall i j, (i < rows demo_small)%nat -> (j < cols demo_small)%nat ->
                  bgr2gray demo_world (at_ demo_small i j)
                  = bgr2gray demo_world (at_ demo_small i j)).
Proof.
  apply (compare_images_one_iff_same_gray demo_world demo_small demo_small).
  - unfold nonempty. simpl. lia.
  - reflexivity.
  - reflexivity.
Defined.

(** X13.  The scorer fails in exactly these ways: a null candidate raises
    [AttributeError] (reading [img1.shape]); an empty candidate or an
    empty reference raises an OpenCV error; in every other case it returns
    a score. *)
Theorem compare_images_failures (w : World) (img1 : option Mat) (reference : Mat) :
  (img1 = None ->
   compare_images w img1 reference
   = Raise (AttributeError "'NoneType' object has no attribute 'shape'"))
  /\ (forall candidate, img1 = Some candidate ->
        empty candidate = true \/ empty reference = true ->
        exists msg, compare_images w img1 reference = Raise (cv2_error msg))
  /\ ((exists s, compare_images w img1 reference = Ok s)
      <-> exists candidate,
            img1 = Some candidate /\ nonempty candidate /\ nonempty reference).
Proof.
  split; [intros ->; reflexivity|]. split.
  - intros candidate -> H. unfold compare_images.
    destruct (shape_eqb candidate reference) eqn:Es; cbn [negb].
    + assert (Ec : empty candidate = true).
      { unfold shape_eqb in Es. apply andb_prop in Es. destruct Es as [E1 E2].
        apply Nat.eqb_eq in E1, E2. unfold empty in *. rewrite E1, E2.
        destruct H as [H | H]; [rewrite <- E1, <- E2|]; exact H. }
      cbn [rbind]. unfold cvtColor_BGR2GRAY. rewrite Ec. cbn. eauto.
    + unfold cv2_resize.
      destruct (empty reference) eqn:Er; [cbn; eauto|].
      destruct H as [Ec | F]; [|discriminate].
      unfold empty in Ec. rewrite Ec. cbn. eauto.
  - split.
    + intros [s Hs]. destruct (compare_images_Ok_nonempty w _ _ _ Hs)
        as (candidate & E & Hc & Hr). eauto.
    + intros (candidate & -> & Hc & Hr). eexists.
      apply compare_images_value; assumption.
Qed.

Lemma compare_images_failures_witness :
  compare_images demo_world None demo_reference
  = Raise (AttributeError "'NoneType' object has no attribute 'shape'")
  /\ (exists msg, compare_images demo_world (Some (demo_image [])) demo_reference
                  = Raise (cv2_error msg))
  /\ (exists s, compare_images demo_world (Some demo_small) demo_reference = Ok s).
Proof.
  split; [|split].
  - apply (proj1 (compare_images_failures demo_world None demo_reference)).
    reflexivity.
  - apply (proj1 (proj2 (compare_images_failures demo_world
                           (Some (demo_image [])) demo_reference))
             (demo_image [])); [reflexivity|]. left. reflexivity.
  - apply (proj2 (proj2 (proj2 (compare_images_failures demo_world
                                  (Some demo_small) demo_reference)))).
    exists demo_small. split; [reflexivity|].
    split; unfold nonempty; simpl; lia.
Defined.

Lemma threshold_as_mse (m : Q) :
  SIMILARITY_THRESHOLD <= 1 - m / 255 ^ 2 <-> m <= MSE_THRESHOLD.
Proof.
  rewrite score_of_mean. unfold SIMILARITY_THRESHOLD, MSE_THRESHOLD.
  assert (E : m == m / 65025 * 65025) by (field; lra).
  set (x := m / 65025) in *.
  assert (Ht : 98 # 100 == 98 / 100) by reflexivity.
  assert (Hm : 13005 # 10 == 13005 / 10) by reflexivity.
  rewrite Ht, Hm. split; intros H; lra.
Qed.

(** X14.  A region counts as a match exactly when the mean squared gray
    difference between the capture and the reference (resized if needed)
    is at most 1300.5. *)
Theorem match_iff_mse_below (w : World) (candidate reference : Mat) :
  nonempty candidate -> nonempty reference ->
  exists s,
    compare_images w (Some candidate) reference = Ok s
    /\ (Qle_bool SIMILARITY_THRESHOLD s = true
        <-> np_mean (squared_differences w candidate
                       (spec_reference_as_scored w candidate reference))
            <= MSE_THRESHOLD).
Proof.
  intros Hc Hr. eexists. split; [apply compare_images_value; assumption|].
  rewrite Qle_bool_iff. apply threshold_as_mse.
Qed.

Lemma match_iff_mse_below_witness :
  exists s,
    compare_images demo_world (Some demo_small) demo_large = Ok s
    /\ (Qle_bool SIMILARITY_THRESHOLD s = true
        <-> np_mean (squared_differences demo_world demo_small
                       (spec_reference_as_scored demo_world demo_small demo_large))
            <= MSE_THRESHOLD).
Proof.
  apply (match_iff_mse_below demo_world demo_small demo_large);
    unfold nonempty; simpl; lia.
Defined.

(** X15.  A capture whose gray values all differ from the reference's by
    the same whole number of levels matches exactly when that number is at
    most 36. *)
Theorem uniform_offset_tolerance (w : World) (a b : Mat) (z : Z) :
  nonempty a -> rows a = rows b -> cols a = cols b ->
  (forall i j, (i < rows a)%nat -> (j < cols a)%nat ->
     Qabs (spec_gray w a i j - spec_gray w b i j) == inject_Z z) ->
  exists s, compare_images w (Some a) b = Ok s
            /\ (Qle_bool SIMILARITY_THRESHOLD s = true <-> (z <= 36)%Z).
Proof.
  intros Ha Hr Hc H.
  assert (Hz : (0 <= z)%Z).
  { destruct Ha as [H1 H2]. specialize (H 0%nat 0%nat H1 H2).
    pose proof (Qabs_nonneg (spec_gray w a 0 0 - spec_gray w b 0 0)) as Hn.
    rewrite H in Hn. change 0 with (inject_Z 0) in Hn.
    rewrite Zle_Qle. exact Hn. }
  destruct (uniform_offset_score w a b (inject_Z z) Ha Hr Hc H) as (s & Hs & E).
  exists s. split; [exact Hs|].
  rewrite Qle_bool_iff, E.
  assert (E2 : inject_Z z ^ 2 == inject_Z (z * z))
    by (rewrite inject_Z_mult; simpl; ring).
  rewrite E2. unfold SIMILARITY_THRESHOLD.
  assert (Ex : inject_Z (z * z) == inject_Z (z * z) / 65025 * 65025) by (field; lra).
  set (x := inject_Z (z * z) / 65025) in *.
  assert (Ht : 98 # 100 == 98 / 100) by reflexivity.
  rewrite Ht.
  split.
  - intros Hle.
    assert (Hq : inject_Z (z * z) <= inject_Z 1300).
    { assert (Hq' : inject_Z (z * z) < inject_Z 1301).
      { change (inject_Z 1301) with 1301. lra. }
      rewrite <- Zlt_Qlt in Hq'. rewrite <- Zle_Qle. lia. }
    rewrite <- Zle_Qle in Hq. nia.
  - intros Hle.
    assert (Hq : inject_Z (z * z) <= inject_Z 1296) by (rewrite <- Zle_Qle; nia).
    change (inject_Z 1296) with 1296 in Hq. lra.
Qed.

Lemma uniform_offset_tolerance_witness :
  exists s, compare_images demo_world (Some (demo_image [[36; 136]%N]))
              (demo_image [[0; 100]%N]) = Ok s
            /\ (Qle_bool SIMILARITY_THRESHOLD s = true <-> (36 <= 36)%Z).
Proof.
  apply (uniform_offset_tolerance demo_world
           (demo_image [[36; 136]%N]) (demo_image [[0; 100]%N]) 36).
  - unfold nonempty. simpl. lia.
  - reflexivity.
  - reflexivity.
  - intros i j Hi Hj. simpl in Hi, Hj.
    assert (i = 0%nat) by lia. assert (j = 0%nat \/ j = 1%nat) by lia.
    subst i. destruct H0 as [-> | ->]; vm_compute; reflexivity.
Defined.

(** ** More on the Linux backend *)

Lemma ascii_wellformed (bs : list byte) :
  Forall (fun b => byte_in 0 127 b = true) bs -> utf8_wellformed bs = true.
Proof.
  induction 1 as [|b bs Hb _ IH]; [reflexivity|].
  cbn [utf8_wellformed]. rewrite Hb. exact IH.
Qed.

(** X16.  When [grim] exits with a non-zero status and its diagnostics are
    plain ASCII, the backend raises [RuntimeError] with the text
    "grim failed: " followed by those diagnostics, or by
    "No error message" when there are none. *)
Theorem capture_region_linux_message (w : World) (k : nat) (r : region)
    (returncode : Z) (out err : list byte) :
  subprocess_run w k (grim_args r) = Exited returncode out err ->
  returncode <> 0%Z ->
  Forall (fun b => byte_in 0 127 b = true) err ->
  capture_region_linux w k r
  = Raise (RuntimeError
             ("grim failed: "
              ++ match err with
                 | [] => "No error message"
                 | _ => string_of_list_byte err
                 end)).
Proof.
  intros Hrun Hrc Hascii.
  rewrite capture_region_linux_cases, Hrun, (proj2 (Z.eqb_neq _ _) Hrc).
  unfold bytes_decode. rewrite (ascii_wellformed err Hascii).
  destruct err; reflexivity.
Qed.

Lemma capture_region_linux_message_witness :
  capture_region_linux flaky_world 1 (mkRegion 834 56 35 31)
  = Raise (RuntimeError "grim failed: no output")
  /\ capture_region_linux mute_grim_world 1 (mkRegion 834 56 35 31)
     = Raise (RuntimeError "grim failed: No error message").
Proof.
  split.
  - apply (capture_region_linux_message flaky_world 1 (mkRegion 834 56 35 31) 1 []
             [x6e; x6f; x20; x6f; x75; x74; x70; x75; x74]).
    + reflexivity.
    + discriminate.
    + repeat constructor.
  - apply (capture_region_linux_message mute_grim_world 1 (mkRegion 834 56 35 31) 1 [] []).
    + reflexivity.
    + discriminate.
    + constructor.
Defined.

(** X17.  When [grim] cannot be started on a Linux host, the operating
    system's error leaves the backend as it is (it is not turned into the
    backend's [RuntimeError]), and a cycle in which that happens for every
    region logs it for each region, finds no match and leaves
    [last_audio_time] as it was. *)
Theorem grim_missing_cycle (w : World) (reference_img : Mat) (s : loop_state)
    (msg : string) :
  platform_system w = "Linux"%string ->
  (forall r, In r REGIONS ->
     subprocess_run w (cycle_no s) (grim_args r) = SpawnError msg) ->
  (forall r, In r REGIONS ->
     capture_region_linux w (cycle_no s) r = Raise (OSError msg))
  /\ poll_cycle w reference_img s
     = (flat_map (failed_capture_log (OSError msg)) (enumerate 1 REGIONS)
        ++ [PrintNewline],
        Ok (last_audio_time s)).
Proof.
  intros Hos Hrun.
  assert (Hcap : forall r, In r REGIONS ->
                   capture_region_linux w (cycle_no s) r = Raise (OSError msg)).
  { intros r Hr. rewrite capture_region_linux_cases, (Hrun r Hr). reflexivity. }
  split; [exact Hcap|].
  unfold poll_cycle.
  rewrite (for_regions_all_fail w (cycle_no s) reference_img (OSError msg)).
  - reflexivity.
  - intros r Hr. unfold capture_region. rewrite Hos.
    cbn [String.eqb Ascii.eqb Bool.eqb]. apply Hcap. exact Hr.
Qed.

Lemma grim_missing_cycle_witness :
  poll_cycle no_grim_world demo_reference initial_state
  = ([CaptureRegion (mkRegion 834 56 35 31);
      PrintRegionError 1 (OSError "No such file or directory: 'grim'");
      CaptureRegion (mkRegion 835 1830 35 31);
      PrintRegionError 2 (OSError "No such file or directory: 'grim'");
      PrintNewline],
     Ok 0).
Proof.
  apply (proj2 (grim_missing_cycle no_grim_world demo_reference initial_state
                  "No such file or directory: 'grim'" eq_refl
                  (fun r _ => eq_refl))).
Defined.


Lemma capture_region_linux_runtime_error_witness :
  (exists returncode out err,
     subprocess_run flaky_world 1 (grim_args (mkRegion 834 56 35 31))
     = Exited returncode out err /\ returncode <> 0%Z)
  /\ (exists msg, capture_region_linux mute_grim_world 1 (mkRegion 834 56 35 31)
                  = Raise (RuntimeError msg)).
Proof.
  split.
  - apply (proj1 (capture_region_linux_runtime_error flaky_world 1
                    (mkRegion 834 56 35 31)) "grim failed: no output"%string).
    reflexivity.
  - apply (proj2 (capture_region_linux_runtime_error mute_grim_world 1
                    (mkRegion 834 56 35 31)) 1%Z [] []).
    + reflexivity.
    + discriminate.
    + reflexivity.
Defined.

(** ** The geometry argument *)











(** ** More on the alert step *)

(** X20.  While the clock has not gone back and the cooldown is running,
    the seconds reported as remaining are a whole number between 0 and 20;
    in the last second of the cooldown the report is 0 although the alert
    is still held back. *)
Theorem cooldown_remaining_range (w : World) (k : nat) (last : Q) :
  last <= time_time w k ->
  time_time w k - last < COOLDOWN_PERIOD ->
  exists remaining,
    alert_trigger w k true last = ([PrintCooldown remaining], Ok last)
    /\ (0 <= remaining <= 20)%Z
    /\ (COOLDOWN_PERIOD - 1 < time_time w k - last -> remaining = 0%Z).
Proof.
  intros Hmono Hlt. eexists.
  split; [apply alert_trigger_suppressed; exact Hlt|].
  set (x := COOLDOWN_PERIOD - (time_time w k - last)).
  assert (Hx : 0 < x <= 20) by (unfold x, COOLDOWN_PERIOD in *; split; lra).
  destruct (int_of_float_positive x) as [Hlo Hhi]; [lra|].
  set (n := int_of_float x) in *.
  assert (H0 : (0 <= n)%Z).
  { assert (Hq : inject_Z 0 < inject_Z (n + 1)).
    { rewrite inject_Z_plus. change (inject_Z 0) with 0.
      change (inject_Z 1) with 1. lra. }
    rewrite <- Zlt_Qlt in Hq. lia. }
  assert (H20 : (n <= 20)%Z).
  { rewrite Zle_Qle. change (inject_Z 20) with 20. lra. }
  split; [lia|].
  intros Hlast.
  assert (Hq : inject_Z n < inject_Z 1).
  { change (inject_Z 1) with 1. unfold x, COOLDOWN_PERIOD in *. lra. }
  rewrite <- Zlt_Qlt in Hq. lia.
Qed.

Lemma cooldown_remaining_range_witness :
  exists remaining,
    alert_trigger demo_world 3 true 1000 = ([PrintCooldown remaining], Ok 1000)
    /\ (0 <= remaining <= 20)%Z
    /\ (COOLDOWN_PERIOD - 1 < time_time demo_world 3 - 1000 -> remaining = 0%Z).
Proof.
  apply (cooldown_remaining_range demo_world 3 1000).
  - vm_compute. discriminate.
  - vm_compute. reflexivity.
Defined.

Lemma region_matched_score (w : World) (k : nat) (reference_img : Mat)
    (i : nat) (r : region) :
  region_matched w k reference_img i r = true ->
  exists sc, In (PrintScore i sc) (region_log w k reference_img i r)
             /\ Qle_bool SIMILARITY_THRESHOLD sc = true.
Proof.
  unfold region_matched, region_log, scan_region.
  destruct (capture_region w k r) as [screen_img|e]; [|discriminate].
  cbn [lift emit bind].
  assert (Hw : cv2_imwrite (DebugRegion i) screen_img = ([ImWrite (DebugRegion i)], Ok tt)
               \/ exists e, cv2_imwrite (DebugRegion i) screen_img = ([], Raise e)).
  { unfold cv2_imwrite, lift, emit.
    destruct screen_img as [m|]; [destruct (empty m)|]; eauto. }
  destruct Hw as [-> | [e ->]]; [|discriminate].
  cbn [lift emit bind].
  destruct (compare_images w screen_img reference_img) as [sc|e]; [|discriminate].
  cbn [lift emit bind].
  destruct (Qle_bool SIMILARITY_THRESHOLD sc) eqn:E; cbn; [|discriminate].
  intros _. exists sc. split; [|exact E]. auto.
Qed.

(** X21.  No alert without cause: when a cycle plays the alert, some
    region's score logged in that same cycle reached the threshold, and
    the clock was at least one cooldown period past [last_audio_time]. *)
Theorem alert_needs_qualifying_score (w : World) (reference_img : Mat)
    (s : loop_state) :
  In PrintPlaying (fst (poll_cycle w reference_img s)) ->
  (exists i sc, In (PrintScore i sc) (fst (poll_cycle w reference_img s))
                /\ SIMILARITY_THRESHOLD <= sc)
  /\ COOLDOWN_PERIOD <= time_time w (cycle_no s) - last_audio_time s.
Proof.
  intros Hin.
  assert (Ha : In PrintPlaying (alert_events (fst (poll_cycle w reference_img s))))
    by (apply filter_In; split; [exact Hin|reflexivity]).
  rewrite alert_events_poll_cycle in Ha.
  destruct (any_match w reference_img (cycle_no s)) eqn:Em; [|destruct Ha].
  destruct (Qle_bool COOLDOWN_PERIOD _) eqn:Ec;
    [|destruct Ha as [F | []]; discriminate].
  split; [|apply Qle_bool_iff; exact Ec].
  unfold any_match in Em. apply existsb_exists in Em.
  destruct Em as ([i r] & Hir & Hm).
  destruct (region_matched_score w (cycle_no s) reference_img i r Hm)
    as (sc & Hsc & Hthr).
  exists i, sc. split; [|apply Qle_bool_iff; exact Hthr].
  rewrite poll_cycle_unfold. cbn [fst]. apply in_or_app. left.
  rewrite for_regions_unfold. cbn [fst]. apply in_flat_map.
  exists (i, r). split; [exact Hir|exact Hsc].
Qed.

Lemma alert_needs_qualifying_score_witness :
  (exists i sc,
     In (PrintScore i sc) (fst (poll_cycle demo_world demo_reference initial_state))
     /\ SIMILARITY_THRESHOLD <= sc)
  /\ COOLDOWN_PERIOD
     <= time_time demo_world (cycle_no initial_state) - last_audio_time initial_state.
Proof.
  apply (alert_needs_qualifying_score demo_world demo_reference initial_state).
  vm_compute. auto 20.
Defined.

(** ** Colour *)

Lemma spec_reference_same_shape (w : World) (a a' reference : Mat) :
  rows a = rows a' -> cols a = cols a' ->
  spec_reference_as_scored w a reference = spec_reference_as_scored w a' reference.
Proof.
  intros Hr Hc. unfold spec_reference_as_scored. rewrite Hr, Hc. reflexivity.
Qed.

(** X23.  The score sees gray values only: two non-empty captures of the
    same dimensions with the same gray value at every pixel get the same
    score against any non-empty reference, whatever their colours. *)
Theorem compare_images_colour_blind (w : World) (a a' reference : Mat) :
  nonempty a -> nonempty reference ->
  rows a = rows a' -> cols a = cols a' ->
  (forall i j, (i < rows a)%nat -> (j < cols a)%nat ->
     bgr2gray w (at_ a i j) = bgr2gray w (at_ a' i j)) ->
  exists s s',
    compare_images w (Some a) reference = Ok s
    /\ compare_images w (Some a') reference = Ok s'
    /\ s == s'.
Proof.
  intros Ha Href Hr Hc H.
  assert (Ha' : nonempty a') by (destruct Ha; split; lia).
  eexists. eexists.
  split; [apply compare_images_value; assumption|].
  split; [apply compare_images_value; assumption|].
  rewrite <- (spec_reference_same_shape w a a' reference Hr Hc).
  assert (E : np_mean (squared_differences w a (spec_reference_as_scored w a reference))
              == np_mean (squared_differences w a'
                            (spec_reference_as_scored w a reference))).
  { apply np_mean_ext; [exact Hr|exact Hc|]. intros i j Hi Hj. simpl.
    unfold spec_gray. rewrite (H i j Hi Hj). reflexivity. }
  rewrite E. reflexivity.
Qed.

Lemma compare_images_colour_blind_witness :
  exists s s',
    compare_images demo_world (Some demo_small) demo_large = Ok s
    /\ compare_images demo_world (Some demo_tinted) demo_large = Ok s'
    /\ s == s'.
Proof.
  apply (compare_images_colour_blind demo_world demo_small demo_tinted demo_large).
  - unfold nonempty. simpl. lia.
  - unfold nonempty. simpl. lia.
  - reflexivity.
  - reflexivity.
  - intros i j Hi Hj. simpl in Hi, Hj.
    assert (i = 0%nat) by lia. assert (j = 0%nat \/ j = 1%nat) by lia.
    subst i. destruct H0 as [-> | ->]; vm_compute; reflexivity.
Defined.
